(** * LifeTime: "your life in weeks"

    A shallow embedding of [src/App.jsx] and the properties of its
    statistics engine ([calculateLifeStats]), its counter animation
    ([AnimatedNumber]), its week grid ([LifeGrid]) and its reveal cards
    ([StatCard]).

    Conventions of the embedding.
    - A JavaScript number that the code keeps integral is a [Z]; JavaScript's
      real division and its fractional literals are taken in [Q], and
      [Math.floor] is [Qfloor]. The literals 29.53 and 29.78 are the rationals
      2953/100 and 2978/100, and timestamps in milliseconds are rationals.
      The integral quantities of the program stay below 2^53 for every birth
      date a [Date] can hold and a current instant of this era, so the source
      computes them exactly too.
    - The object returned by [calculateLifeStats] is a finite map from field
      names to values; [null] is [None].
    - What the browser provides ([Date] parsing, the clock, the rules of the
      local time zone, [IntersectionObserver], animation frames, timers) is a
      parameter of the model: a [Host] record for the statistics engine and
      event lists for the components. The offset of the local zone is a
      function of the instant, as zone rules make it. *)

From stdpp Require Import gmap strings list sorting.
From Stdlib Require Import ZArith QArith Qround Qminmax Lqa Lia.

Open Scope Z_scope.

(** * Part I: the program *)

(** ** The [Date] built-in (ECMA-262, section "Date Objects") *)

Module JSDate.

Definition msPerDay : Z := 86400000.

(** [Day(t) = floor(t / msPerDay)]. *)
Definition Day (t : Z) : Z := t / msPerDay.

(** [DayFromYear(y)]: the day number of the first day of year [y]. *)
Definition DayFromYear (y : Z) : Z :=
  365 * (y - 1970) + (y - 1969) / 4 - (y - 1901) / 100 + (y - 1601) / 400.

(** The year a day number falls in: an estimate from the mean length of a
    Gregorian year (146097 days in 400 years), corrected by one year. *)
Definition YearFromDay (d : Z) : Z :=
  let y := 1970 + (d * 400) / 146097 in
  if d <? DayFromYear y then y - 1
  else if DayFromYear (y + 1) <=? d then y + 1
  else y.

(** [YearFromTime(t)]: the largest [y] with [TimeFromYear(y) <= t]. *)
Definition YearFromTime (t : Z) : Z := YearFromDay (Day t).

(** [Date.prototype.getFullYear]: the year of the local time
    [LocalTime(t) = t + LocalTZA(t)], where [tza t] is the offset of the local
    zone in force at the instant [t]. *)
Definition getFullYear (tza : Z → Z) (t : Z) : Z := YearFromTime (t + tza t).

End JSDate.

(** What the runtime supplies to [calculateLifeStats]. *)
Record Host := {
  (** [new Date(str).getTime()]: the time value in milliseconds since the
      epoch, [None] for an Invalid Date ([NaN]). *)
  Date_parse : string → option Z;
  (** The empty string is not a date: [new Date("")] is an Invalid Date. *)
  Date_parse_empty : Date_parse EmptyString = None;
  (** [new Date().getTime()]: the current instant. *)
  Date_now : Z;
  (** Offset of local time from UTC in force at an instant, in
      milliseconds: it changes with daylight saving and with the history of
      the zone. *)
  LocalTZA : Z → Z
}.

(** ** Constants and data *)

Definition WEEKS_IN_YEAR : Z := 52.
Definition TOTAL_YEARS : Z := 90.
Definition TOTAL_WEEKS : Z := TOTAL_YEARS * WEEKS_IN_YEAR.

Record president := { name : string; start : Z; end_ : Z }.

Definition US_PRESIDENTS : list president := [
  {| name := "Jimmy Carter"; start := 1977; end_ := 1981 |};
  {| name := "Ronald Reagan"; start := 1981; end_ := 1989 |};
  {| name := "George H. W. Bush"; start := 1989; end_ := 1993 |};
  {| name := "Bill Clinton"; start := 1993; end_ := 2001 |};
  {| name := "George W. Bush"; start := 2001; end_ := 2009 |};
  {| name := "Barack Obama"; start := 2009; end_ := 2017 |};
  {| name := "Donald Trump"; start := 2017; end_ := 2021 |};
  {| name := "Joe Biden"; start := 2021; end_ := 2025 |}
].

Definition IPHONE_RELEASES : list Z :=
  [2007; 2008; 2009; 2010; 2011; 2012; 2013; 2014; 2015; 2016; 2017; 2018;
   2019; 2020; 2021; 2022; 2023; 2024].

(** ** Helper functions *)

(** The values stored in the fields of the statistics object. *)
Inductive value :=
  | VNum (n : Z)
  | VBool (b : bool)
  | VNames (l : list string).

Definition Math_floor (x : Q) : Z := Qfloor x.

(** The filter predicate of [presidentsInLifetime]:
    [p.start >= birthYear || (p.start < birthYear && p.end > birthYear)]. *)
Definition inLifetime (birthYear : Z) (p : president) : Prop :=
  start p >= birthYear ∨ (start p < birthYear ∧ end_ p > birthYear).

Global Instance inLifetime_dec birthYear p : Decision (inLifetime birthYear p) :=
  @or_dec (start p >= birthYear) _
          (start p < birthYear ∧ end_ p > birthYear) _.

Definition presidentsInLifetime (birthYear : Z) : list string :=
  name <$> filter (inLifetime birthYear) US_PRESIDENTS.

Definition iphoneModels (birthYear : Z) : Z :=
  Z.of_nat (length (filter (λ year, year >= birthYear) IPHONE_RELEASES)).

Definition peopleMet (yearsLived : Z) : Z :=
  Z.min 80000 (Math_floor (inject_Z yearsLived * (80000 # 80))).

(** The full record, from the two instants and the two calendar years. *)
Definition lifeStats (msLived birthYear nowYear : Z) : gmap string value :=
  let daysLived := Math_floor (inject_Z msLived / inject_Z (1000 * 60 * 60 * 24)) in
  let weeksLived := Math_floor (inject_Z daysLived / 7) in
  let yearsLived := nowYear - birthYear in
  let heartbeats := Math_floor (inject_Z (daysLived * 24 * 60 * 70)) in
  let fullMoons := Math_floor (inject_Z daysLived / (2953 # 100)) in
  let earthRevolutions := yearsLived in
  let kmTraveledAroundSun :=
    Math_floor (inject_Z (daysLived * 24 * 60 * 60) * (2978 # 100)) in
  let mealsEaten := daysLived * 3 in
  let hoursSlept := yearsLived * 365 * 8 in
  let dreams := hoursSlept * 2 in
  <["weeksLived" := VNum weeksLived]> (
  <["heartbeats" := VNum heartbeats]> (
  <["fullMoons" := VNum fullMoons]> (
  <["earthRevolutions" := VNum earthRevolutions]> (
  <["kmTraveledAroundSun" := VNum kmTraveledAroundSun]> (
  <["presidentsInLifetime" := VNames (presidentsInLifetime birthYear)]> (
  <["mealsEaten" := VNum mealsEaten]> (
  <["hoursSlept" := VNum hoursSlept]> (
  <["dreams" := VNum dreams]> (
  <["peopleMet" := VNum (peopleMet yearsLived)]> (
  <["iphoneModels" := VNum (iphoneModels birthYear)]> (
  <["isFuture" := VBool false]> ∅))))))))))).

Definition calculateLifeStats (h : Host) (birthDateStr : string)
  : option (gmap string value) :=
  if decide (birthDateStr = "") then None
  else
    let now := Date_now h in
    match Date_parse h birthDateStr with
    | None => None
    | Some birthDate =>
        let msLived := now - birthDate in
        if msLived <? 0 then Some {["isFuture" := VBool true]}
        else
          let birthYear := JSDate.getFullYear (LocalTZA h) birthDate in
          let nowYear := JSDate.getFullYear (LocalTZA h) now in
          Some (lifeStats msLived birthYear nowYear)
    end.

(** A host for the examples. Its [Date] reads the two ISO forms
    [YYYY-MM-DD] and [YYYY-MM-DDTHH:mm:ssZ], both in UTC, the first being what
    the date input submits; a day up to 31 is accepted in every month and
    rolls over into the next month, as V8 reads it. It has no other format:
    the examples use it on strings of these two forms, on the empty string
    and on text that no runtime reads as a date. *)
Module IsoHost.

Definition digit (c : Ascii.ascii) : option Z :=
  let n := Z.of_N (Ascii.N_of_ascii c) in
  if (48 <=? n) && (n <=? 57) then Some (n - 48) else None.

Definition num2 (a b : Ascii.ascii) : option Z :=
  x ← digit a; y ← digit b; Some (10 * x + y).

Definition isLeap (y : Z) : bool :=
  ((y mod 4 =? 0) && negb (y mod 100 =? 0)) || (y mod 400 =? 0).

Definition daysInMonth (y m : Z) : Z :=
  if m =? 2 then (if isLeap y then 29 else 28)
  else if (m =? 4) || (m =? 6) || (m =? 9) || (m =? 11) then 30 else 31.

Fixpoint daysBefore (y : Z) (m : nat) : Z :=
  match m with
  | O => 0
  | S k => daysBefore y k + daysInMonth y (Z.of_nat (S k))
  end.

Definition dash : Ascii.ascii := Ascii.ascii_of_N 45.
Definition colon : Ascii.ascii := Ascii.ascii_of_N 58.
Definition letterT : Ascii.ascii := Ascii.ascii_of_N 84.
Definition letterZ : Ascii.ascii := Ascii.ascii_of_N 90.

(** The time of day in milliseconds: nothing, or [THH:mm:ssZ]. *)
Definition parseTime (s : string) : option Z :=
  match s with
  | EmptyString => Some 0
  | String t (String h1 (String h2 (String c1 (String n1 (String n2
      (String c2 (String e1 (String e2 (String z EmptyString))))))))) =>
      hh ← num2 h1 h2; mm ← num2 n1 n2; ss ← num2 e1 e2;
      if Ascii.eqb t letterT && Ascii.eqb c1 colon && Ascii.eqb c2 colon
         && Ascii.eqb z letterZ && (hh <=? 23) && (mm <=? 59) && (ss <=? 59)
      then Some (((hh * 60 + mm) * 60 + ss) * 1000)
      else None
  | _ => None
  end.

Definition parse (s : string) : option Z :=
  match s with
  | String y1 (String y2 (String y3 (String y4 (String s1 (String m1
      (String m2 (String s2 (String d1 (String d2 rest))))))))) =>
      hi ← num2 y1 y2; lo ← num2 y3 y4; m ← num2 m1 m2; d ← num2 d1 d2;
      time ← parseTime rest;
      let y := 100 * hi + lo in
      if Ascii.eqb s1 dash && Ascii.eqb s2 dash
         && (1 <=? m) && (m <=? 12) && (1 <=? d) && (d <=? 31)
      then Some (JSDate.msPerDay *
                   (JSDate.DayFromYear y + daysBefore y (Z.to_nat (m - 1)) + (d - 1))
                 + time)
      else None
  | _ => None
  end.

(** 2025-06-15T12:00:00Z, in a zone that has always been five hours behind
    UTC. *)
Definition host : Host :=
  {| Date_parse := parse; Date_parse_empty := eq_refl;
     Date_now := 1749988800000; LocalTZA := λ _, -18000000 |}.

(** The same zone with the clock at 2010-06-15T12:00:00Z. *)
Definition host2010 : Host :=
  {| Date_parse := parse; Date_parse_empty := eq_refl;
     Date_now := 1276603200000; LocalTZA := λ _, -18000000 |}.

(** The rules of America/Phoenix around the new year of 1944: war time, six
    hours behind UTC, ended at 00:01 local time on 1 January 1944
    (06:01:00Z), when the clocks went back to 23:01 of 31 December 1943,
    seven hours behind UTC. *)
Definition phoenixTZA (t : Z) : Z :=
  if t <? -820519140000 then -21600000 else -25200000.

(** Phoenix with the clock at 1944-01-01T06:30:00Z. *)
Definition phoenix1944 : Host :=
  {| Date_parse := parse; Date_parse_empty := eq_refl;
     Date_now := -820517400000; LocalTZA := phoenixTZA |}.

(** The rules of Asia/Almaty in 2024: six hours ahead of UTC until
    1 March 2024 at 00:00 local time (2024-02-29T18:00:00Z), five hours
    ahead from then on. *)
Definition almatyTZA (t : Z) : Z :=
  if t <? 1709229600000 then 21600000 else 18000000.

(** Almaty with the clock at 2024-12-31T18:50:00Z. *)
Definition almaty2024 : Host :=
  {| Date_parse := parse; Date_parse_empty := eq_refl;
     Date_now := 1735671000000; LocalTZA := almatyTZA |}.

End IsoHost.

(** ** [LifeGrid] *)

Module LifeGrid.

(** One cell of the grid: its key [i], whether it is drawn as lived, and
    whether it carries the wider margin that closes a decade. *)
Record gridUnit := { key : Z; isLived : bool; isDecadeMarker : bool }.

(** JavaScript's [%] takes the sign of the dividend: [Z.rem]. *)
Definition cell (weeksLived i : Z) : gridUnit :=
  let isLived := i <? weeksLived in
  let year := i / WEEKS_IN_YEAR in
  let isDecadeMarker :=
    (Z.rem (year + 1) 10 =? 0) && (Z.rem i WEEKS_IN_YEAR =? WEEKS_IN_YEAR - 1) in
  {| key := i; isLived := isLived; isDecadeMarker := isDecadeMarker |}.

(** [Array.from({ length: TOTAL_WEEKS }, (_, i) => ...)]. *)
Definition grid (weeksLived : Z) : list gridUnit :=
  (λ i : nat, cell weeksLived (Z.of_nat i)) <$> seq 0 (Z.to_nat TOTAL_WEEKS).

End LifeGrid.

(** ** [AnimatedNumber] *)

(** What a mount effect can raise. *)
Inductive exn := ReferenceError.

Module AnimatedNumber.

(** The state of one mounted counter. [emitted] is the log of the calls of
    [setDisplayValue], oldest first; [animation] holds the [startTime] of the
    running animation while a frame callback is requested. *)
Record state := {
  displayValue : Z;
  observing : bool;
  animation : option Q;
  emitted : list Z
}.

(** What the browser delivers: a notification of the observer, carrying
    [entries[0].isIntersecting] and the reading of [performance.now()] at that
    moment, or an animation frame with its timestamp. *)
Inductive event :=
  | Intersect (isIntersecting : bool) (now : Q)
  | Frame (currentTime : Q).

Definition setDisplayValue (v : Z) (st : state) : state :=
  {| displayValue := v; observing := observing st;
     animation := animation st; emitted := emitted st ++ [v] |}.

(** The mount effect: [new IntersectionObserver(...)] is a reference to a
    global of the browser, and raises when there is none. *)
Definition mount (hasIntersectionObserver : bool) : exn + state :=
  if hasIntersectionObserver
  then inr {| displayValue := 0; observing := true;
              animation := None; emitted := [] |}
  else inl ReferenceError.

Definition duration : Q := 1500.

(** The value computed by [animate] at [currentTime]. *)
Definition currentVal (value : Z) (startTime currentTime : Q) : Z :=
  let start := 0%Q in
  let end' := inject_Z value in
  let elapsedTime := (currentTime - startTime)%Q in
  let progress := Qmin (elapsedTime / duration) 1 in
  Math_floor (progress * (end' - start) + start).

Definition progress_lt_1 (startTime currentTime : Q) :
  {(Qmin ((currentTime - startTime) / duration) 1 < 1)%Q}
  + {(1 <= Qmin ((currentTime - startTime) / duration) 1)%Q} :=
  Qlt_le_dec _ _.

Definition step (value : Z) (st : state) (ev : event) : state :=
  match ev with
  | Intersect isIntersecting now =>
      if observing st && isIntersecting then
        if decide (0 = value) then st
        else {| displayValue := displayValue st; observing := false;
                animation := Some now; emitted := emitted st |}
      else st
  | Frame currentTime =>
      match animation st with
      | None => st
      | Some startTime =>
          let st' := setDisplayValue (currentVal value startTime currentTime) st in
          if progress_lt_1 startTime currentTime then st'
          else setDisplayValue value
                 {| displayValue := displayValue st'; observing := observing st';
                    animation := None; emitted := emitted st' |}
      end
  end.

Definition run (hasIntersectionObserver : bool) (value : Z) (evs : list event)
  : exn + state :=
  match mount hasIntersectionObserver with
  | inl e => inl e
  | inr st => inr (foldl (step value) st evs)
  end.

End AnimatedNumber.

(** ** [StatCard] *)

Module StatCard.

(** The state of one mounted card. [timers] holds the delays of the
    [setTimeout] callbacks that have not fired yet. *)
Record state := {
  isRendered : bool;
  observing : bool;
  timers : list Z
}.

Inductive event :=
  | Intersect (isIntersecting : bool)
  | Timeout.

Definition mount (hasIntersectionObserver : bool) : exn + state :=
  if hasIntersectionObserver
  then inr {| isRendered := false; observing := true; timers := [] |}
  else inl ReferenceError.

Definition step (delay : Z) (st : state) (ev : event) : state :=
  match ev with
  | Intersect isIntersecting =>
      if observing st && isIntersecting
      then {| isRendered := isRendered st; observing := observing st;
              timers := timers st ++ [delay] |}
      else st
  | Timeout =>
      match timers st with
      | [] => st
      | _ :: rest => {| isRendered := true; observing := false; timers := rest |}
      end
  end.

Definition run (hasIntersectionObserver : bool) (delay : Z) (evs : list event)
  : exn + state :=
  match mount hasIntersectionObserver with
  | inl e => inl e
  | inr st => inr (foldl (step delay) st evs)
  end.

End StatCard.

(** ** [DateInputScreen], [VisualizationScreen] and [App] *)

Abbreviation statsObject := (gmap string value).
Abbreviation jsValue := value (only parsing).

(** Whether a field read is truthy; a missing field reads [undefined]. *)
Definition truthy (v : option value) : bool :=
  match v with
  | None => false
  | Some (VBool b) => b
  | Some (VNum n) => negb (n =? 0)
  | Some (VNames _) => true
  end.

Module VisualizationScreen.

(** The props of one [StatCard]; [value] is the field read from the record,
    [None] when the record has no such field. *)
Record card := {
  label : string;
  value : option value;
  unit : option string;
  delay : Z
}.

(** The nine cards, in the order of the page. *)
Definition statCards (stats : statsObject) : list card := [
  {| label := "weeks lived"; value := stats !! "weeksLived";
     unit := Some "approx."; delay := 100 |};
  {| label := "heartbeats"; value := stats !! "heartbeats";
     unit := Some "approx."; delay := 200 |};
  {| label := "full moons seen"; value := stats !! "fullMoons";
     unit := None; delay := 300 |};
  {| label := "meals eaten"; value := stats !! "mealsEaten";
     unit := Some "approx."; delay := 100 |};
  {| label := "hours slept"; value := stats !! "hoursSlept";
     unit := Some "approx."; delay := 200 |};
  {| label := "dreams dreamt"; value := stats !! "dreams";
     unit := Some "approx."; delay := 300 |};
  {| label := "people met"; value := stats !! "peopleMet";
     unit := Some "estimate"; delay := 400 |};
  {| label := "orbits of the sun"; value := stats !! "earthRevolutions";
     unit := None; delay := 100 |};
  {| label := "iphone models released"; value := stats !! "iphoneModels";
     unit := Some "in your lifetime"; delay := 200 |}
].

(** What the screen renders: the placeholder for a [null] record, the
    message for a future date, or the page with the grid, the cards and the
    list of presidents. *)
Inductive view :=
  | Calculating
  | FutureMessage
  | Page (weeksLived : option jsValue) (cards : list card)
         (presidents : option jsValue).

Definition render (h : Host) (birthDate : string) : view :=
  match calculateLifeStats h birthDate with
  | None => Calculating
  | Some stats =>
      if truthy (stats !! "isFuture") then FutureMessage
      else Page (stats !! "weeksLived") (statCards stats)
                (stats !! "presidentsInLifetime")
  end.

End VisualizationScreen.

Module App.

Inductive themeName := light | dark.

Record state := { birthDate : option string; theme : themeName }.

(** The state after the mount effects: no date, and the theme of the
    [prefers-color-scheme] query, [light] when [matchMedia] is missing. *)
Definition mount (prefersDark : option bool) : state :=
  {| birthDate := None;
     theme := match prefersDark with Some true => dark | _ => light end |}.

Definition toggleTheme (st : state) : state :=
  {| birthDate := birthDate st;
     theme := match theme st with light => dark | dark => light end |}.

Definition handleDateSubmit (date : string) (st : state) : state :=
  {| birthDate := Some date; theme := theme st |}.

Definition handleReset (st : state) : state :=
  {| birthDate := None; theme := theme st |}.

Inductive screen :=
  | DateInput
  | Visualization (v : VisualizationScreen.view).

(** [birthDate ? <VisualizationScreen/> : <DateInputScreen/>]: [null] and the
    empty string are falsy. *)
Definition render (h : Host) (st : state) : screen :=
  match birthDate st with
  | None => DateInput
  | Some date =>
      if decide (date = "") then DateInput
      else Visualization (VisualizationScreen.render h date)
  end.

(** What the user can do: submit the form of the date input with the text of
    its field, press a button wired to [onReset], press the theme button. *)
Inductive action :=
  | Submit (input : string)
  | Reset
  | ToggleTheme.

(** An action acts only on a screen that offers it. The form is on the date
    input screen and its handler ignores an empty field; [onReset] is wired
    on the future message and on the page; the theme button is on the page.
    [h] is the host as read when the screen was rendered. *)
Definition step (h : Host) (st : state) (a : action) : state :=
  match render h st, a with
  | DateInput, Submit input =>
      if decide (input = "") then st else handleDateSubmit input st
  | Visualization VisualizationScreen.FutureMessage, Reset =>
      handleReset st
  | Visualization (VisualizationScreen.Page _ _ _), Reset =>
      handleReset st
  | Visualization (VisualizationScreen.Page _ _ _), ToggleTheme =>
      toggleTheme st
  | _, _ => st
  end.

End App.

(** * Part II: notions used to state the properties *)

(** The fields of the full record, and those that are counts. *)
Definition statsFields : list string :=
  ["weeksLived"; "heartbeats"; "fullMoons"; "earthRevolutions";
   "kmTraveledAroundSun"; "presidentsInLifetime"; "mealsEaten"; "hoursSlept";
   "dreams"; "peopleMet"; "iphoneModels"; "isFuture"].

Definition countFields : list string :=
  ["weeksLived"; "heartbeats"; "fullMoons"; "kmTraveledAroundSun";
   "mealsEaten"; "hoursSlept"; "dreams"; "peopleMet"; "iphoneModels";
   "earthRevolutions"].

(** [daysLived], as an integer quotient. *)
Definition daysLivedOf (msLived : Z) : Z := msLived / JSDate.msPerDay.

(** The formula as the specification words it:
    [min(80000, floor(yearsLived × 80000 / 80))]. *)
Definition peopleMet_spec (yearsLived : Z) : Z :=
  Z.min 80000 (Qfloor (inject_Z yearsLived * 80000 / 80)).

(** A table is chronological when every term starts before it ends and no
    term starts before an earlier one has ended. *)
Definition chronological (table : list president) : Prop :=
  Forall (λ p, start p < end_ p) table
  ∧ StronglySorted (λ p q, end_ p <= start q) table.

(** A term is a half-open span of years [start, end): it overlaps the
    lifetime when one of its years lies between the birth year and the
    current year. *)
Definition overlapsLifetime (birthYear nowYear : Z) (p : president) : Prop :=
  ∃ y, start p <= y < end_ p ∧ birthYear <= y <= nowYear.

(** The values a running animation emits on the frames [ts]. *)
Fixpoint frames_out (value : Z) (startTime : Q) (ts : list Q) : list Z :=
  match ts with
  | [] => []
  | t :: ts' =>
      if AnimatedNumber.progress_lt_1 startTime t
      then AnimatedNumber.currentVal value startTime t :: frames_out value startTime ts'
      else [AnimatedNumber.currentVal value startTime t; value]
  end.

(** The displayed value is the last value passed to [setDisplayValue], and
    the initial 0 before any call. *)
Definition shows_last_emitted (st : AnimatedNumber.state) : Prop :=
  AnimatedNumber.displayValue st = default 0 (last (AnimatedNumber.emitted st)).

(** The reading of C5: without the observer, a mounted element is triggered
    at once. *)
Definition triggered_without_observer (delay : Z) : Prop :=
  ∃ st, StatCard.run false delay [] = inr st ∧ StatCard.isRendered st = true.

(** The timestamps of the animation frames among the events, in order. *)
Definition frameTimes (evs : list AnimatedNumber.event) : list Q :=
  omap (λ ev, match ev with
              | AnimatedNumber.Frame t => Some t
              | AnimatedNumber.Intersect _ _ => None
              end) evs.

(** The state of a counter right after its mount. *)
Definition mountedCounter : AnimatedNumber.state :=
  {| AnimatedNumber.displayValue := 0; AnimatedNumber.observing := true;
     AnimatedNumber.animation := None; AnimatedNumber.emitted := [] |}.

(** The same host at another reading of the clock. *)
Definition hostAt (h : Host) (now : Z) : Host :=
  {| Date_parse := Date_parse h; Date_parse_empty := Date_parse_empty h;
     Date_now := now; LocalTZA := LocalTZA h |}.

(** The counts derived from [daysLived], and those derived from
    [yearsLived]. *)
Definition dayFields : list string :=
  ["weeksLived"; "heartbeats"; "fullMoons"; "kmTraveledAroundSun"; "mealsEaten"].

Definition yearFields : list string :=
  ["earthRevolutions"; "hoursSlept"; "dreams"; "peopleMet"].

(** The reading of C2: the listed names are those of the terms that overlap
    the years from the birth year to the current year. *)
Definition lists_exactly_overlapping (h : Host) (s : string) : Prop :=
  ∀ t, Date_parse h s = Some t → t < Date_now h →
  ∃ stats names, calculateLifeStats h s = Some stats
    ∧ stats !! "presidentsInLifetime" = Some (VNames names)
    ∧ ∀ p, p ∈ US_PRESIDENTS →
        name p ∈ names ↔
        overlapsLifetime (JSDate.getFullYear (LocalTZA h) t)
          (JSDate.getFullYear (LocalTZA h) (Date_now h)) p.

(** The reading of C9: no derived count of a birth date that is not in the
    future is negative. *)
Definition all_counts_nonneg (h : Host) (s : string) : Prop :=
  ∀ t, Date_parse h s = Some t → t <= Date_now h →
  ∃ stats, calculateLifeStats h s = Some stats
    ∧ ∀ k, k ∈ countFields → ∃ n, stats !! k = Some (VNum n) ∧ 0 <= n.

(** * Part III: properties *)

(** ** The calendar *)

Section Calendar.
Import JSDate.

Lemma DayFromYear_mono y1 y2 : y1 <= y2 → DayFromYear y1 <= DayFromYear y2.
Proof. unfold DayFromYear. intros. Z.div_mod_to_equations. lia. Qed.

Lemma DayFromYear_lt_inv y1 y2 : DayFromYear y1 < DayFromYear y2 → y1 < y2.
Proof.
  intros Hlt. destruct (Z.lt_ge_cases y1 y2) as [|Hge]; [done|].
  apply DayFromYear_mono in Hge. lia.
Qed.

(** [YearFromDay] meets the definition of ECMA-262: the year whose first
    day is the last one not after [d]. *)
Lemma YearFromDay_spec d :
  DayFromYear (YearFromDay d) <= d < DayFromYear (YearFromDay d + 1).
Proof.
  unfold YearFromDay. set (y := 1970 + d * 400 / 146097).
  destruct (Z.ltb_spec d (DayFromYear y));
    [|destruct (Z.leb_spec (DayFromYear (y + 1)) d)];
    unfold DayFromYear in *; subst y; Z.div_mod_to_equations; lia.
Qed.

Lemma YearFromDay_mono d1 d2 : d1 <= d2 → YearFromDay d1 <= YearFromDay d2.
Proof.
  intros Hd.
  pose proof (YearFromDay_spec d1) as [H1 _].
  pose proof (YearFromDay_spec d2) as [_ H2].
  assert (YearFromDay d1 < YearFromDay d2 + 1); [|lia].
  apply DayFromYear_lt_inv. lia.
Qed.

(** The local year does not go back while the local time does not. *)
Lemma getFullYear_mono (tza : Z → Z) t1 t2 :
  t1 + tza t1 <= t2 + tza t2 → getFullYear tza t1 <= getFullYear tza t2.
Proof.
  intros Ht. unfold getFullYear, YearFromTime, Day, msPerDay.
  apply YearFromDay_mono, Z.div_le_mono; lia.
Qed.

End Calendar.

(** ** [Math.floor] of quotients and products *)

Lemma Math_floor_div (a b : Z) :
  0 < b → Math_floor (inject_Z a / inject_Z b) = a / b.
Proof.
  intros Hb. destruct b as [|p|p]; try lia.
  unfold Math_floor, Qdiv, Qmult, Qinv, inject_Z, Qfloor. simpl.
  by rewrite Z.mul_1_r.
Qed.

Lemma Math_floor_int (a : Z) : Math_floor (inject_Z a) = a.
Proof. apply Qfloor_Z. Qed.

Lemma Math_floor_nonneg (x : Q) : (0 <= x)%Q → 0 <= Math_floor x.
Proof. intros Hx. apply (Qfloor_resp_le 0 x Hx). Qed.

(** ** The shape of the returned object *)

(** Reads a field of an object literal written as a chain of inserts. *)
Ltac read_field :=
  repeat (rewrite lookup_insert_ne by done); rewrite lookup_insert_eq.

Section Fields.
Variables msLived birthYear nowYear : Z.
Let stats := lifeStats msLived birthYear nowYear.
Let daysLived := daysLivedOf msLived.
Let yearsLived := nowYear - birthYear.

Lemma lifeStats_dom : dom stats = list_to_set statsFields.
Proof.
  subst stats. unfold lifeStats. cbv zeta.
  rewrite !dom_insert_L, dom_empty_L. unfold statsFields. simpl. set_solver.
Qed.

Lemma lifeStats_weeksLived :
  stats !! "weeksLived" = Some (VNum (daysLived / 7)).
Proof.
  subst stats daysLived. unfold lifeStats, daysLivedOf. cbv zeta.
  read_field. do 2 f_equal.
  rewrite (Math_floor_div msLived) by done.
  by rewrite (Math_floor_div _ 7).
Qed.

Lemma lifeStats_heartbeats :
  stats !! "heartbeats" = Some (VNum (daysLived * 24 * 60 * 70)).
Proof.
  subst stats daysLived. unfold lifeStats, daysLivedOf. cbv zeta.
  read_field. by rewrite Math_floor_int, (Math_floor_div msLived).
Qed.

Lemma lifeStats_fullMoons :
  stats !! "fullMoons" =
    Some (VNum (Math_floor (inject_Z daysLived / (2953 # 100)))).
Proof.
  subst stats daysLived. unfold lifeStats, daysLivedOf. cbv zeta.
  read_field. by rewrite (Math_floor_div msLived).
Qed.

Lemma lifeStats_earthRevolutions :
  stats !! "earthRevolutions" = Some (VNum yearsLived).
Proof. subst stats. unfold lifeStats. cbv zeta. read_field; done. Qed.

Lemma lifeStats_kmTraveledAroundSun :
  stats !! "kmTraveledAroundSun" =
    Some (VNum (Math_floor (inject_Z (daysLived * 24 * 60 * 60) * (2978 # 100)))).
Proof.
  subst stats daysLived. unfold lifeStats, daysLivedOf. cbv zeta.
  read_field. by rewrite (Math_floor_div msLived).
Qed.

Lemma lifeStats_presidentsInLifetime :
  stats !! "presidentsInLifetime" =
    Some (VNames (presidentsInLifetime birthYear)).
Proof. subst stats. unfold lifeStats. cbv zeta. read_field; done. Qed.

Lemma lifeStats_mealsEaten :
  stats !! "mealsEaten" = Some (VNum (daysLived * 3)).
Proof.
  subst stats daysLived. unfold lifeStats, daysLivedOf. cbv zeta.
  read_field. by rewrite (Math_floor_div msLived).
Qed.

Lemma lifeStats_hoursSlept :
  stats !! "hoursSlept" = Some (VNum (yearsLived * 365 * 8)).
Proof. subst stats. unfold lifeStats. cbv zeta. read_field; done. Qed.

Lemma lifeStats_dreams :
  stats !! "dreams" = Some (VNum (yearsLived * 365 * 8 * 2)).
Proof. subst stats. unfold lifeStats. cbv zeta. read_field; done. Qed.

Lemma lifeStats_peopleMet :
  stats !! "peopleMet" = Some (VNum (peopleMet yearsLived)).
Proof. subst stats. unfold lifeStats. cbv zeta. read_field; done. Qed.

Lemma lifeStats_iphoneModels :
  stats !! "iphoneModels" = Some (VNum (iphoneModels birthYear)).
Proof. subst stats. unfold lifeStats. cbv zeta. read_field; done. Qed.

Lemma lifeStats_isFuture : stats !! "isFuture" = Some (VBool false).
Proof. subst stats. unfold lifeStats. cbv zeta. read_field; done. Qed.

End Fields.

(** ** The three outcomes of [calculateLifeStats] *)

Section Outcomes.
Variable h : Host.
Let now := Date_now h.
Let year := JSDate.getFullYear (LocalTZA h).

Lemma parsed_nonempty s t : Date_parse h s = Some t → s ≠ "".
Proof. intros Hs ->. by rewrite Date_parse_empty in Hs. Qed.

Lemma calculateLifeStats_null s :
  s = "" ∨ Date_parse h s = None → calculateLifeStats h s = None.
Proof.
  unfold calculateLifeStats. intros [->| ->]; [done|]. by case_decide.
Qed.

Lemma calculateLifeStats_future s t :
  Date_parse h s = Some t → now < t →
  calculateLifeStats h s = Some {["isFuture" := VBool true]}.
Proof.
  intros Hs Ht. unfold calculateLifeStats.
  pose proof (parsed_nonempty _ _ Hs). case_decide; [done|].
  rewrite Hs. subst now. by destruct (Z.ltb_spec (Date_now h - t) 0); [|lia].
Qed.

Lemma calculateLifeStats_lived s t :
  Date_parse h s = Some t → t <= now →
  calculateLifeStats h s = Some (lifeStats (now - t) (year t) (year now)).
Proof.
  intros Hs Ht. unfold calculateLifeStats.
  pose proof (parsed_nonempty _ _ Hs). case_decide; [done|].
  rewrite Hs. subst now. by destruct (Z.ltb_spec (Date_now h - t) 0); [lia|].
Qed.

End Outcomes.

(** C1. A birth date strictly in the past gives a record whose [weeksLived]
    is the floor of [daysLived / 7], where [daysLived] is the floor of the
    elapsed milliseconds over the milliseconds of a day, and it is not
    negative. ([Z.div] by a positive number is the floor of the quotient.) *)
Theorem weeksLived_is_floor_of_days (h : Host) (s : string) (birthDate : Z) :
  Date_parse h s = Some birthDate →
  birthDate < Date_now h →
  let daysLived := (Date_now h - birthDate) / (1000 * 60 * 60 * 24) in
  ∃ stats, calculateLifeStats h s = Some stats
    ∧ stats !! "weeksLived" = Some (VNum (daysLived / 7))
    ∧ 0 <= daysLived / 7.
Proof.
  intros Hs Ht daysLived. eexists. split; [|split].
  - apply calculateLifeStats_lived; [done|lia].
  - apply lifeStats_weeksLived.
  - subst daysLived. apply Z.div_pos; [|lia]. apply Z.div_pos; lia.
Qed.

Lemma weeksLived_is_floor_of_days_witness :
  Date_parse IsoHost.host "1990-05-15" = Some 642729600000
  ∧ 642729600000 < Date_now IsoHost.host
  ∧ ∃ stats, calculateLifeStats IsoHost.host "1990-05-15" = Some stats
      ∧ stats !! "weeksLived" = Some (VNum 1830) ∧ 0 <= 1830.
Proof.
  split; [reflexivity|]. split; [reflexivity|].
  apply (weeksLived_is_floor_of_days IsoHost.host "1990-05-15" 642729600000);
    reflexivity.
Defined.

(** C3. A date after the current instant gives the record holding
    [isFuture = true] and no other field; a date at or before the current
    instant gives the record with all twelve fields, [isFuture] being
    [false]. *)
Theorem isFuture_iff_after_now (h : Host) (s : string) (birthDate : Z) :
  Date_parse h s = Some birthDate →
  (Date_now h < birthDate →
     ∃ r, calculateLifeStats h s = Some r
       ∧ r !! "isFuture" = Some (VBool true)
       ∧ ∀ k, k ≠ "isFuture" → r !! k = None)
  ∧ (birthDate <= Date_now h →
     ∃ r, calculateLifeStats h s = Some r
       ∧ r !! "isFuture" = Some (VBool false)
       ∧ dom r = list_to_set statsFields).
Proof.
  intros Hs. split; intros Ht.
  - exists {["isFuture" := VBool true]}. split; [|split].
    + by apply calculateLifeStats_future with birthDate.
    + apply lookup_singleton_eq.
    + intros k Hk. by apply lookup_singleton_ne.
  - eexists. split; [|split].
    + by apply calculateLifeStats_lived.
    + apply lifeStats_isFuture.
    + apply lifeStats_dom.
Qed.

Lemma isFuture_iff_after_now_witness :
  (∃ r, calculateLifeStats IsoHost.host "2025-06-16" = Some r
     ∧ r !! "isFuture" = Some (VBool true)
     ∧ ∀ k, k ≠ "isFuture" → r !! k = None)
  ∧ (∃ r, calculateLifeStats IsoHost.host "2025-06-15" = Some r
     ∧ r !! "isFuture" = Some (VBool false)
     ∧ dom r = list_to_set statsFields).
Proof.
  split.
  - apply (isFuture_iff_after_now IsoHost.host "2025-06-16" 1750032000000);
      reflexivity.
  - apply (isFuture_iff_after_now IsoHost.host "2025-06-15" 1749945600000);
      [reflexivity|]. unfold IsoHost.host. simpl. lia.
Defined.

(** C4. [calculateLifeStats] is a total function on strings, so no input
    makes it throw. The empty string and a string that does not parse give
    [null]; every other string gives a record, which is either the
    future-only record or the full one. *)
Theorem calculateLifeStats_total (h : Host) (s : string) :
  (calculateLifeStats h s = None ↔ s = "" ∨ Date_parse h s = None)
  ∧ (is_Some (calculateLifeStats h s) ↔ s ≠ "" ∧ is_Some (Date_parse h s))
  ∧ ∀ r, calculateLifeStats h s = Some r →
      r = {["isFuture" := VBool true]}
      ∨ (r !! "isFuture" = Some (VBool false)
         ∧ dom r = list_to_set statsFields).
Proof.
  destruct (Date_parse h s) as [t|] eqn:Hs.
  - pose proof (parsed_nonempty _ _ _ Hs) as Hne.
    assert (∃ r0, calculateLifeStats h s = Some r0
              ∧ (r0 = {["isFuture" := VBool true]}
                 ∨ (r0 !! "isFuture" = Some (VBool false)
                    ∧ dom r0 = list_to_set statsFields))) as (r0 & Hr & Hshape).
    { destruct (Z.lt_ge_cases (Date_now h) t).
      - eexists. split; [by apply calculateLifeStats_future with t|]. by left.
      - eexists. split; [by apply calculateLifeStats_lived|]. right.
        split; [apply lifeStats_isFuture|apply lifeStats_dom]. }
    rewrite Hr. split; [|split].
    + split; [done|]. by intros [?|?].
    + split; intros _; [split|]; by eauto.
    + by intros r [= <-].
  - rewrite calculateLifeStats_null by (by right). split; [|split].
    + split; [by right|done].
    + split; [by intros [? ?]|]. by intros [_ [? ?]].
    + done.
Qed.

Lemma calculateLifeStats_total_witness :
  calculateLifeStats IsoHost.host "" = None
  ∧ calculateLifeStats IsoHost.host "not a date" = None
  ∧ is_Some (calculateLifeStats IsoHost.host "1990-05-15").
Proof.
  pose proof (calculateLifeStats_total IsoHost.host "") as [H1 _].
  pose proof (calculateLifeStats_total IsoHost.host "not a date") as [H2 _].
  pose proof (calculateLifeStats_total IsoHost.host "1990-05-15") as [_ [H3 _]].
  split; [apply H1; by left|]. split; [apply H2; by right|].
  apply H3. split; [done|]. by eexists.
Defined.

(** ** [peopleMet] *)

Lemma peopleMet_linear (yearsLived : Z) :
  peopleMet yearsLived = Z.min 80000 (yearsLived * 1000).
Proof.
  unfold peopleMet, Math_floor, Qmult, inject_Z, Qfloor. simpl.
  f_equal. change (Z.pos (1 * 80)) with 80. Z.div_mod_to_equations. lia.
Qed.

(** C8. [peopleMet] is the linear ramp of the specification capped at 80000:
    it agrees with [min(80000, floor(yearsLived × 80000 / 80))], never
    exceeds 80000 and does not decrease when [yearsLived] grows; it is the
    value stored in the record for [yearsLived = nowYear - birthYear]. *)
Theorem peopleMet_capped_ramp (yearsLived : Z) :
  peopleMet yearsLived = peopleMet_spec yearsLived
  ∧ peopleMet yearsLived <= 80000
  ∧ (∀ later, yearsLived <= later → peopleMet yearsLived <= peopleMet later)
  ∧ ∀ msLived birthYear,
      lifeStats msLived birthYear (birthYear + yearsLived) !! "peopleMet"
      = Some (VNum (peopleMet yearsLived)).
Proof.
  split; [|split; [|split]].
  - rewrite peopleMet_linear.
    unfold peopleMet_spec, Qdiv, Qmult, Qinv, inject_Z, Qfloor. simpl.
    f_equal. change (Z.pos (1 * 1 * 80)) with 80. Z.div_mod_to_equations. lia.
  - rewrite peopleMet_linear. lia.
  - intros later Hle. rewrite !peopleMet_linear. lia.
  - intros msLived birthYear. rewrite lifeStats_peopleMet.
    do 3 f_equal. lia.
Qed.

Lemma peopleMet_capped_ramp_witness :
  peopleMet 35 <= peopleMet 36 ∧ peopleMet 80 <= peopleMet 95.
Proof.
  split.
  - apply (peopleMet_capped_ramp 35). lia.
  - apply (peopleMet_capped_ramp 80). lia.
Defined.

(** ** Signs of the derived counts *)

Lemma inject_Z_nonneg (a : Z) : 0 <= a → (0 <= inject_Z a)%Q.
Proof. intros Ha. unfold Qle, inject_Z. simpl. lia. Qed.

Lemma lifeStats_day_counts_nonneg (msLived birthYear nowYear : Z) (k : string) :
  0 <= msLived → k ∈ dayFields ++ ["iphoneModels"] →
  ∃ n, lifeStats msLived birthYear nowYear !! k = Some (VNum n) ∧ 0 <= n.
Proof.
  intros Hms Hk.
  assert (Hdays : 0 <= daysLivedOf msLived)
    by (apply Z.div_pos; [done|by unfold JSDate.msPerDay]).
  unfold dayFields in Hk. simpl in Hk.
  repeat (apply elem_of_cons in Hk as [->|Hk]); [..|by apply elem_of_nil in Hk];
    eexists; (split; [
      first [ apply lifeStats_weeksLived | apply lifeStats_heartbeats
            | apply lifeStats_fullMoons | apply lifeStats_kmTraveledAroundSun
            | apply lifeStats_mealsEaten | apply lifeStats_iphoneModels ]
      | ]).
  - apply Z.div_pos; lia.
  - lia.
  - apply Math_floor_nonneg, Qle_shift_div_l; [done|].
    rewrite Qmult_0_l. by apply inject_Z_nonneg.
  - apply Math_floor_nonneg, Qmult_le_0_compat; [|done].
    apply inject_Z_nonneg. lia.
  - lia.
  - unfold iphoneModels. lia.
Qed.

Lemma lifeStats_year_counts_sign (msLived birthYear nowYear : Z) (k : string) :
  k ∈ yearFields →
  ∃ n, lifeStats msLived birthYear nowYear !! k = Some (VNum n)
    ∧ (0 <= n ↔ birthYear <= nowYear).
Proof.
  intros Hk. unfold yearFields in Hk.
  repeat (apply elem_of_cons in Hk as [->|Hk]); [..|by apply elem_of_nil in Hk];
    eexists; (split; [
      first [ apply lifeStats_earthRevolutions | apply lifeStats_hoursSlept
            | apply lifeStats_dreams | apply lifeStats_peopleMet ]
      | ]); rewrite ?peopleMet_linear; lia.
Qed.

(** C9, as the code has it. For a birth date that is not in the future
    every derived count is an integer. The counts derived from [daysLived],
    and [iphoneModels], are never negative. The counts derived from
    [yearsLived] are the difference of two local calendar years scaled: they
    are not negative exactly when the local year of the birth instant is not
    after the local year of the current instant, which holds whenever the
    local time of the birth instant is not after the local time of the
    current instant, and so whenever the zone offset is the same at both. *)
Theorem derived_counts_signs (h : Host) (s : string) (birthDate : Z) :
  Date_parse h s = Some birthDate →
  birthDate <= Date_now h →
  let birthYear := JSDate.getFullYear (LocalTZA h) birthDate in
  let nowYear := JSDate.getFullYear (LocalTZA h) (Date_now h) in
  ∃ stats, calculateLifeStats h s = Some stats
    ∧ (∀ k, k ∈ dayFields ++ ["iphoneModels"] →
         ∃ n, stats !! k = Some (VNum n) ∧ 0 <= n)
    ∧ (∀ k, k ∈ yearFields →
         ∃ n, stats !! k = Some (VNum n) ∧ (0 <= n ↔ birthYear <= nowYear))
    ∧ (birthDate + LocalTZA h birthDate <= Date_now h + LocalTZA h (Date_now h) →
         birthYear <= nowYear)
    ∧ (LocalTZA h birthDate = LocalTZA h (Date_now h) → birthYear <= nowYear).
Proof.
  intros Hs Ht birthYear nowYear. eexists.
  split; [by apply calculateLifeStats_lived|].
  split; [intros k Hk; apply lifeStats_day_counts_nonneg; [lia|done]|].
  split; [intros k Hk; by apply lifeStats_year_counts_sign|].
  split; [apply getFullYear_mono|].
  intros Heq. apply getFullYear_mono. lia.
Qed.

Lemma derived_counts_signs_witness :
  ∃ stats, calculateLifeStats IsoHost.host "1990-05-15" = Some stats
    ∧ (∀ k, k ∈ dayFields ++ ["iphoneModels"] →
         ∃ n, stats !! k = Some (VNum n) ∧ 0 <= n)
    ∧ (∀ k, k ∈ yearFields →
         ∃ n, stats !! k = Some (VNum n) ∧ (0 <= n ↔ 1990 <= 2025))
    ∧ (642729600000 + -18000000 <= 1749988800000 + -18000000 → 1990 <= 2025)
    ∧ (-18000000 = -18000000 → 1990 <= 2025).
Proof.
  apply (derived_counts_signs IsoHost.host "1990-05-15" 642729600000);
    [reflexivity|]. unfold IsoHost.host. simpl. lia.
Defined.

(** In Phoenix, half a minute after midnight of 1 January 1944 is a birth
    date in the year 1944; half an hour later the clocks have gone back and
    the year is 1943. The birth date is not in the future and
    [earthRevolutions] is -1. *)
Lemma negative_counts_when_year_goes_back :
  Date_parse IsoHost.phoenix1944 "1944-01-01T06:00:30Z" = Some (-820519170000)
  ∧ -820519170000 <= Date_now IsoHost.phoenix1944
  ∧ (∃ stats, calculateLifeStats IsoHost.phoenix1944 "1944-01-01T06:00:30Z"
              = Some stats
       ∧ stats !! "earthRevolutions" = Some (VNum (-1))
       ∧ stats !! "hoursSlept" = Some (VNum (-2920))
       ∧ stats !! "dreams" = Some (VNum (-5840))
       ∧ stats !! "peopleMet" = Some (VNum (-1000)))
  ∧ ¬ all_counts_nonneg IsoHost.phoenix1944 "1944-01-01T06:00:30Z".
Proof.
  split; [reflexivity|]. split; [by vm_compute|].
  assert (calculateLifeStats IsoHost.phoenix1944 "1944-01-01T06:00:30Z"
          = Some (lifeStats 1770000 1944 1943)) as Hstats.
  { rewrite (calculateLifeStats_lived IsoHost.phoenix1944 _ (-820519170000));
      [|reflexivity|by vm_compute].
    f_equal. }
  split.
  - exists (lifeStats 1770000 1944 1943). split; [exact Hstats|].
    split; [by rewrite (lifeStats_earthRevolutions 1770000 1944 1943)|].
    split; [by rewrite (lifeStats_hoursSlept 1770000 1944 1943)|].
    split; [by rewrite (lifeStats_dreams 1770000 1944 1943)|].
    by rewrite (lifeStats_peopleMet 1770000 1944 1943).
  - intros Hclaim.
    destruct (Hclaim (-820519170000)) as (stats & Hcalc & Hall);
      [reflexivity|by vm_compute|].
    rewrite Hstats in Hcalc. injection Hcalc as <-.
    destruct (Hall "earthRevolutions") as (n & Hn & Hpos).
    { unfold countFields.
      repeat (first [apply list_elem_of_here | apply list_elem_of_further]). }
    rewrite (lifeStats_earthRevolutions 1770000 1944 1943) in Hn.
    injection Hn as <-. lia.
Qed.

(** ** [presidentsInLifetime] *)

Lemma US_PRESIDENTS_chronological : chronological US_PRESIDENTS.
Proof.
  split; unfold US_PRESIDENTS.
  - repeat constructor.
  - repeat (constructor; [|repeat constructor; simpl; lia]). constructor.
Qed.

Lemma US_PRESIDENTS_names_NoDup : NoDup (name <$> US_PRESIDENTS).
Proof. apply (bool_decide_unpack _). by vm_compute. Qed.

(** On a term that starts before it ends, the filter keeps the entry exactly
    when the term ends after the birth year. *)
Lemma inLifetime_iff_ends_after (birthYear : Z) (p : president) :
  start p < end_ p → inLifetime birthYear p ↔ birthYear < end_ p.
Proof. unfold inLifetime. lia. Qed.

Lemma filter_Forall_id {A} (P : A → Prop) `{!∀ x, Decision (P x)} (l : list A) :
  Forall P l → filter P l = l.
Proof.
  induction 1 as [|x l Hx _ IH]; [done|]. by rewrite filter_cons_True, IH.
Qed.

Lemma filter_chronological_drop (birthYear : Z) (table : list president) :
  chronological table →
  ∃ k, filter (inLifetime birthYear) table = drop k table.
Proof.
  intros [Hterm Hsorted]. induction table as [|p table IH].
  - by exists 0%nat.
  - apply Forall_cons in Hterm as [Hp Hterm].
    apply StronglySorted_inv in Hsorted as [Hsorted Hlater].
    destruct (decide (inLifetime birthYear p)) as [Hin|Hout].
    + exists 0%nat. rewrite drop_0, filter_cons_True by done. f_equal.
      apply filter_Forall_id, Forall_forall. intros q Hq.
      rewrite Forall_forall in Hlater, Hterm.
      apply inLifetime_iff_ends_after; [by apply Hterm|].
      apply inLifetime_iff_ends_after in Hin; [|done].
      specialize (Hlater q Hq). specialize (Hterm q Hq). simpl in Hlater. lia.
    + destruct (IH Hterm Hsorted) as [k Hk]. exists (S k).
      by rewrite filter_cons_False.
Qed.

Lemma fmap_NoDup_inj {A B} (f : A → B) (l : list A) (x y : A) :
  NoDup (f <$> l) → x ∈ l → y ∈ l → f x = f y → x = y.
Proof.
  induction l as [|a l IH]; intros Hnd Hx Hy Hxy; [by apply elem_of_nil in Hx|].
  rewrite fmap_cons in Hnd. apply NoDup_cons in Hnd as [Ha Hnd].
  apply elem_of_cons in Hx as [->|Hx]; apply elem_of_cons in Hy as [->|Hy].
  - done.
  - destruct Ha. rewrite Hxy. by apply list_elem_of_fmap_2.
  - destruct Ha. rewrite <- Hxy. by apply list_elem_of_fmap_2.
  - by apply IH.
Qed.

Lemma presidentsInLifetime_elem (birthYear : Z) (p : president) :
  p ∈ US_PRESIDENTS →
  name p ∈ presidentsInLifetime birthYear ↔ inLifetime birthYear p.
Proof.
  intros Hp. unfold presidentsInLifetime. split.
  - intros (q & Hname & Hq)%list_elem_of_fmap.
    apply list_elem_of_filter in Hq as [Hq Hqt].
    assert (p = q) as ->; [|done].
    by apply (fmap_NoDup_inj name US_PRESIDENTS p q US_PRESIDENTS_names_NoDup).
  - intros Hin. apply list_elem_of_fmap_2, list_elem_of_filter. done.
Qed.

Lemma inLifetime_iff_overlaps (birthYear nowYear : Z) (p : president) :
  p ∈ US_PRESIDENTS → birthYear <= nowYear → 2021 <= nowYear →
  inLifetime birthYear p ↔ overlapsLifetime birthYear nowYear p.
Proof.
  intros Hp Hyear Hnow. unfold inLifetime, overlapsLifetime.
  assert (start p < end_ p ∧ start p <= 2021) as [Hterm Hstart].
  { unfold US_PRESIDENTS in Hp.
    repeat (apply elem_of_cons in Hp as [->|Hp]); simpl; try lia.
    by apply elem_of_nil in Hp. }
  split.
  - intros Hin. exists (Z.max birthYear (start p)). lia.
  - intros (y & Hy1 & Hy2). lia.
Qed.

(** C2, as the code has it. For a birth date in the past,
    [presidentsInLifetime] lists table names in table order, and a table entry
    is listed exactly when
    [start >= birthYear || (start < birthYear && end > birthYear)], which on
    this table is when its term ends after the birth year. The current
    instant is not consulted. The listed entries are the terms that overlap
    the years from the birth year to the current year only when the current
    year is not before the birth year and has reached the start of the last
    term of the table. *)
Theorem presidents_filtered_by_birth_year (h : Host) (s : string) (birthDate : Z) :
  Date_parse h s = Some birthDate →
  birthDate < Date_now h →
  let birthYear := JSDate.getFullYear (LocalTZA h) birthDate in
  let nowYear := JSDate.getFullYear (LocalTZA h) (Date_now h) in
  ∃ stats names, calculateLifeStats h s = Some stats
    ∧ stats !! "presidentsInLifetime" = Some (VNames names)
    ∧ names = name <$> filter (inLifetime birthYear) US_PRESIDENTS
    ∧ names `sublist_of` (name <$> US_PRESIDENTS)
    ∧ (∀ p, p ∈ US_PRESIDENTS →
         name p ∈ names ↔
         start p >= birthYear ∨ (start p < birthYear ∧ end_ p > birthYear))
    ∧ (∀ p, p ∈ US_PRESIDENTS → name p ∈ names ↔ birthYear < end_ p)
    ∧ (birthYear <= nowYear → 2021 <= nowYear → ∀ p, p ∈ US_PRESIDENTS →
         name p ∈ names ↔ overlapsLifetime birthYear nowYear p).
Proof.
  intros Hs Ht birthYear nowYear. do 2 eexists. split; [|split; [|split]].
  - apply calculateLifeStats_lived; [done|lia].
  - apply lifeStats_presidentsInLifetime.
  - done.
  - fold birthYear. split; [|split; [|split]].
    + apply fmap_sublist, sublist_filter.
    + intros p Hp. by apply presidentsInLifetime_elem.
    + intros p Hp. rewrite (presidentsInLifetime_elem birthYear p Hp).
      apply inLifetime_iff_ends_after.
      destruct US_PRESIDENTS_chronological as [Hterm _].
      rewrite Forall_forall in Hterm. by apply Hterm.
    + intros Hyear Hnow p Hp.
      rewrite (presidentsInLifetime_elem birthYear p Hp).
      by apply inLifetime_iff_overlaps.
Qed.

Lemma presidents_filtered_by_birth_year_witness :
  ∃ stats names, calculateLifeStats IsoHost.host "1990-05-15" = Some stats
    ∧ stats !! "presidentsInLifetime" = Some (VNames names)
    ∧ names = name <$> filter (inLifetime 1990) US_PRESIDENTS
    ∧ names `sublist_of` (name <$> US_PRESIDENTS)
    ∧ (∀ p, p ∈ US_PRESIDENTS →
         name p ∈ names ↔
         start p >= 1990 ∨ (start p < 1990 ∧ end_ p > 1990))
    ∧ (∀ p, p ∈ US_PRESIDENTS → name p ∈ names ↔ 1990 < end_ p)
    ∧ (1990 <= 2025 → 2021 <= 2025 → ∀ p, p ∈ US_PRESIDENTS →
         name p ∈ names ↔ overlapsLifetime 1990 2025 p).
Proof.
  apply (presidents_filtered_by_birth_year IsoHost.host "1990-05-15"
           642729600000); reflexivity.
Defined.

(** With the clock in 2010, a birth date in 1990 is in the past and the
    list of its presidents ends with the term that starts in 2021, which no
    year up to 2010 belongs to. *)
Lemma presidents_listed_beyond_now :
  Date_parse IsoHost.host2010 "1990-05-15" = Some 642729600000
  ∧ 642729600000 < Date_now IsoHost.host2010
  ∧ (∃ stats, calculateLifeStats IsoHost.host2010 "1990-05-15" = Some stats
       ∧ stats !! "presidentsInLifetime"
         = Some (VNames ["George H. W. Bush"; "Bill Clinton"; "George W. Bush";
                         "Barack Obama"; "Donald Trump"; "Joe Biden"]))
  ∧ JSDate.getFullYear (LocalTZA IsoHost.host2010) (Date_now IsoHost.host2010)
    = 2010
  ∧ ¬ lists_exactly_overlapping IsoHost.host2010 "1990-05-15".
Proof.
  split; [reflexivity|]. split; [reflexivity|].
  assert (calculateLifeStats IsoHost.host2010 "1990-05-15"
          = Some (lifeStats 633873600000 1990 2010)) as Hstats.
  { rewrite (calculateLifeStats_lived IsoHost.host2010 _ 642729600000);
      [|reflexivity|by vm_compute].
    f_equal. }
  split; [|split; [by vm_compute|]].
  - exists (lifeStats 633873600000 1990 2010). split; [exact Hstats|].
    by rewrite (lifeStats_presidentsInLifetime 633873600000 1990 2010).
  - intros Hclaim.
    destruct (Hclaim 642729600000) as (stats & names & Hcalc & Hnames & Hiff);
      [reflexivity|reflexivity|].
    rewrite Hstats in Hcalc. injection Hcalc as <-.
    rewrite (lifeStats_presidentsInLifetime 633873600000 1990 2010) in Hnames.
    injection Hnames as <-.
    destruct (Hiff {| name := "Joe Biden"; start := 2021; end_ := 2025 |})
      as [Hoverlap _].
    { unfold US_PRESIDENTS.
      repeat (first [apply list_elem_of_here | apply list_elem_of_further]). }
    destruct Hoverlap as (y & Hterm & Hlife).
    { apply (presidentsInLifetime_elem 1990
               {| name := "Joe Biden"; start := 2021; end_ := 2025 |}).
      - unfold US_PRESIDENTS.
        repeat (first [apply list_elem_of_here | apply list_elem_of_further]).
      - unfold inLifetime. simpl. lia. }
    assert (JSDate.getFullYear (LocalTZA IsoHost.host2010)
              (Date_now IsoHost.host2010) = 2010) as Hnow by by vm_compute.
    rewrite Hnow in Hlife. simpl in Hterm. lia.
Qed.

(** C10. For every birth year the listed presidents are a suffix of the
    table: the filter drops a prefix of the table and keeps the rest, so
    that an entry that is listed brings every later entry with it. *)
Theorem presidents_suffix_of_table (birthYear : Z) :
  (∃ k, filter (inLifetime birthYear) US_PRESIDENTS = drop k US_PRESIDENTS
        ∧ presidentsInLifetime birthYear = drop k (name <$> US_PRESIDENTS))
  ∧ presidentsInLifetime birthYear `suffix_of` (name <$> US_PRESIDENTS)
  ∧ ∀ i j p q, US_PRESIDENTS !! i = Some p → US_PRESIDENTS !! j = Some q →
      (i <= j)%nat →
      name p ∈ presidentsInLifetime birthYear →
      name q ∈ presidentsInLifetime birthYear.
Proof.
  destruct (filter_chronological_drop birthYear US_PRESIDENTS
              US_PRESIDENTS_chronological) as [k Hk].
  assert (Hnames : presidentsInLifetime birthYear = drop k (name <$> US_PRESIDENTS)).
  { unfold presidentsInLifetime. by rewrite Hk, fmap_drop. }
  split; [by exists k|]. split.
  - rewrite Hnames. apply suffix_drop.
  - intros i j p q Hi Hj Hij Hp.
    pose proof (list_elem_of_lookup_2 _ _ _ Hi) as Hpt.
    pose proof (list_elem_of_lookup_2 _ _ _ Hj) as Hqt.
    apply presidentsInLifetime_elem in Hp; [|done].
    apply presidentsInLifetime_elem; [done|].
    assert (p ∈ drop k US_PRESIDENTS) as Hpk.
    { rewrite <- Hk. by apply list_elem_of_filter. }
    assert (q ∈ drop k US_PRESIDENTS) as Hqk; [|rewrite <- Hk in Hqk;
      by apply list_elem_of_filter in Hqk as [? _]].
    assert (k <= i)%nat as Hki.
    { apply list_elem_of_lookup in Hpk as [n Hn]. rewrite lookup_drop in Hn.
      destruct (decide (k + n = i)%nat) as [<-|Hne]; [lia|].
      assert (NoDup US_PRESIDENTS) as Hnd
        by (eapply NoDup_fmap_1, US_PRESIDENTS_names_NoDup).
      by pose proof (NoDup_lookup _ _ _ _ Hnd Hn Hi). }
    apply list_elem_of_lookup. exists (j - k)%nat.
    rewrite lookup_drop. by replace (k + (j - k))%nat with j by lia.
Qed.

Lemma presidents_suffix_of_table_witness :
  "Bill Clinton" ∈ presidentsInLifetime 1995
  ∧ "Barack Obama" ∈ presidentsInLifetime 1995.
Proof.
  assert ("Bill Clinton" ∈ presidentsInLifetime 1995) as Hin
    by (apply (bool_decide_unpack _); by vm_compute).
  split; [exact Hin|].
  pose proof (presidents_suffix_of_table 1995) as (_ & _ & H).
  apply (H 3%nat 5%nat
           {| name := "Bill Clinton"; start := 1993; end_ := 2001 |}
           {| name := "Barack Obama"; start := 2009; end_ := 2017 |});
    [reflexivity|reflexivity|lia|exact Hin].
Defined.

(** ** [LifeGrid] *)

Lemma LifeGrid_lookup (weeksLived : Z) (i : nat) :
  (i < 4680)%nat →
  LifeGrid.grid weeksLived !! i = Some (LifeGrid.cell weeksLived (Z.of_nat i)).
Proof.
  intros Hi. unfold LifeGrid.grid. rewrite list_lookup_fmap.
  change (Z.to_nat TOTAL_WEEKS) with 4680%nat.
  by rewrite lookup_seq_lt.
Qed.

Lemma decade_marker_iff (i : Z) :
  0 <= i < 4680 →
  (Z.rem (i / 52 + 1) 10 =? 0) && (Z.rem i 52 =? 52 - 1) = true
  ↔ ∃ k, 0 <= k < 9 ∧ i = 520 * k + 519.
Proof.
  intros Hi. rewrite andb_true_iff, !Z.eqb_eq.
  rewrite !Z.rem_mod_nonneg by (try apply Z.add_nonneg_nonneg;
                                 try apply Z.div_pos; lia).
  split.
  - intros [Hyear Hweek]. exists (i / 520). Z.div_mod_to_equations. lia.
  - intros (k & Hk & ->). Z.div_mod_to_equations. lia.
Qed.

(** C7. Whatever [weeksLived] is, the grid has exactly 4680 units; unit [i]
    is lived exactly when [i < weeksLived]; it is a decade marker exactly
    when it is the last week of a year whose index plus one is a multiple of
    ten, which is at the indices 519, 1039, 1559, ..., 4679. *)
Theorem LifeGrid_units (weeksLived : Z) :
  length (LifeGrid.grid weeksLived) = Z.to_nat TOTAL_WEEKS
  ∧ TOTAL_WEEKS = 4680
  ∧ ∀ i : nat, (i < 4680)%nat →
      ∃ u, LifeGrid.grid weeksLived !! i = Some u
        ∧ LifeGrid.key u = Z.of_nat i
        ∧ (LifeGrid.isLived u = true ↔ Z.of_nat i < weeksLived)
        ∧ (LifeGrid.isDecadeMarker u = true ↔
             Z.of_nat i mod 52 = 51 ∧ (Z.of_nat i / 52 + 1) mod 10 = 0)
        ∧ (LifeGrid.isDecadeMarker u = true ↔
             ∃ k, 0 <= k < 9 ∧ Z.of_nat i = 520 * k + 519).
Proof.
  split; [|split; [done|]].
  - unfold LifeGrid.grid. by rewrite length_fmap, length_seq.
  - intros i Hi. eexists. split; [by apply LifeGrid_lookup|]. simpl.
    split; [done|]. split; [apply Z.ltb_lt|].
    pose proof (decade_marker_iff (Z.of_nat i)) as Hmark.
    unfold WEEKS_IN_YEAR. split; [|apply Hmark; lia].
    rewrite Hmark by lia. split.
    + intros (k & Hk & ->). Z.div_mod_to_equations. lia.
    + intros [Hweek Hyear]. exists (Z.of_nat i / 520).
      Z.div_mod_to_equations. lia.
Qed.

Lemma LifeGrid_units_witness :
  ∃ u, LifeGrid.grid 130 !! 1039%nat = Some u
    ∧ LifeGrid.key u = 1039
    ∧ (LifeGrid.isLived u = true ↔ 1039 < 130)
    ∧ (LifeGrid.isDecadeMarker u = true ↔
         1039 mod 52 = 51 ∧ (1039 / 52 + 1) mod 10 = 0)
    ∧ (LifeGrid.isDecadeMarker u = true ↔
         ∃ k, 0 <= k < 9 ∧ 1039 = 520 * k + 519).
Proof.
  pose proof (LifeGrid_units 130) as (_ & _ & H).
  apply (H 1039%nat). lia.
Defined.

(** With [weeksLived = 130], exactly 130 units are lived, and the decade
    markers are the nine units that close the decades. *)
Example LifeGrid_130 :
  length (filter (λ u, LifeGrid.isLived u = true) (LifeGrid.grid 130)) = 130%nat
  ∧ LifeGrid.key <$> filter (λ u, LifeGrid.isDecadeMarker u = true) (LifeGrid.grid 130)
    = [519; 1039; 1559; 2079; 2599; 3119; 3639; 4159; 4679].
Proof. split; by vm_compute. Qed.

(** A [weeksLived] beyond the capacity of the grid marks every unit lived. *)
Example LifeGrid_overflow :
  length (LifeGrid.grid 6000) = 4680%nat
  ∧ length (filter (λ u, LifeGrid.isLived u = true) (LifeGrid.grid 6000)) = 4680%nat.
Proof. split; by vm_compute. Qed.

(** ** [AnimatedNumber] *)

Section Counter.
Import AnimatedNumber.
Variable value : Z.
Variable startTime : Q.

Lemma currentVal_mono (t t' : Q) :
  0 <= value → (t <= t')%Q →
  currentVal value startTime t <= currentVal value startTime t'.
Proof.
  intros Hv Ht. unfold currentVal, Math_floor. apply Qfloor_resp_le.
  apply Qplus_le_compat; [|apply Qle_refl].
  apply Qmult_le_compat_r.
  - apply Q.min_le_compat_r. unfold Qdiv.
    apply Qmult_le_compat_r; [lra|done].
  - assert (0 <= inject_Z value)%Q by by apply inject_Z_nonneg. lra.
Qed.

Lemma currentVal_le (t : Q) :
  0 <= value → currentVal value startTime t <= value.
Proof.
  intros Hv. unfold currentVal, Math_floor.
  rewrite <- (Qfloor_Z value) at 2. apply Qfloor_resp_le.
  assert (0 <= inject_Z value)%Q as Hq by by apply inject_Z_nonneg.
  pose proof (Q.le_min_r ((t - startTime) / duration) 1) as Hp.
  pose proof (Qmult_le_compat_r _ _ _ Hp Hq). lra.
Qed.

Lemma currentVal_done (t : Q) :
  (1 <= Qmin ((t - startTime) / duration) 1)%Q →
  currentVal value startTime t = value.
Proof.
  intros Hp. unfold currentVal, Math_floor.
  rewrite <- (Qfloor_Z value) at 2. apply Qfloor_comp.
  pose proof (Q.le_min_r ((t - startTime) / duration) 1) as Hp'.
  assert (Qmin ((t - startTime) / duration) 1 == 1)%Q as -> by lra.
  lra.
Qed.

Lemma progress_done_iff (t : Q) :
  (1 <= Qmin ((t - startTime) / duration) 1)%Q ↔ (startTime + duration <= t)%Q.
Proof.
  unfold duration.
  assert ((t - startTime) / 1500 == (t - startTime) * (1 # 1500))%Q as Hdiv
    by done.
  split.
  - intros Hp. pose proof (Q.le_min_l ((t - startTime) / 1500) 1) as Hl. lra.
  - intros Ht. apply Q.min_glb; lra.
Qed.

Lemma frames_out_hd (t : Q) (ts : list Q) :
  0 <= value → HdRel Qle t ts →
  HdRel Z.le (currentVal value startTime t) (frames_out value startTime ts).
Proof.
  intros Hv [|t' ts' Ht]; simpl; [constructor|].
  destruct (progress_lt_1 startTime t'); constructor; by apply currentVal_mono.
Qed.

Lemma frames_out_sorted (ts : list Q) :
  0 <= value → Sorted Qle ts → Sorted Z.le (frames_out value startTime ts).
Proof.
  intros Hv. induction 1 as [|t ts Hts IH Hhd]; simpl; [constructor|].
  destruct (progress_lt_1 startTime t).
  - constructor; [done|]. by apply frames_out_hd.
  - repeat constructor. by apply currentVal_le.
Qed.

Lemma frames_out_bounded (ts : list Q) :
  0 <= value → Forall (λ v, v <= value) (frames_out value startTime ts).
Proof.
  intros Hv. induction ts as [|t ts IH]; simpl; [constructor|].
  destruct (progress_lt_1 startTime t).
  - constructor; [by apply currentVal_le|done].
  - repeat constructor; [by apply currentVal_le|lia].
Qed.

Lemma frames_out_last (ts : list Q) :
  Exists (λ t, startTime + duration <= t)%Q ts →
  last (frames_out value startTime ts) = Some value.
Proof.
  induction ts as [|t ts IH]; intros Hex; [by apply Exists_nil in Hex|].
  simpl. destruct (progress_lt_1 startTime t) as [Hlt|Hge]; [|done].
  apply Exists_cons in Hex as [Ht|Hex].
  - apply progress_done_iff in Ht. lra.
  - rewrite last_cons, (IH Hex). done.
Qed.

Lemma frames_idle (st : state) (ts : list Q) :
  animation st = None → foldl (step value) st (Frame <$> ts) = st.
Proof.
  intros Hst. induction ts as [|t ts IH]; [done|].
  rewrite fmap_cons. cbn [foldl].
  replace (step value st (Frame t)) with st; [done|].
  simpl. by rewrite Hst.
Qed.

(** Running the frames [ts] through the component appends [frames_out] to
    the log; the animation is over exactly when a frame has reached the end
    of the duration. *)
Lemma frames_run (st : state) (ts : list Q) :
  animation st = Some startTime →
  let st' := foldl (step value) st (Frame <$> ts) in
  emitted st' = emitted st ++ frames_out value startTime ts
  ∧ (Exists (λ t, startTime + duration <= t)%Q ts → animation st' = None)
  ∧ (¬ Exists (λ t, startTime + duration <= t)%Q ts →
       animation st' = Some startTime).
Proof.
  revert st. induction ts as [|t ts IH]; intros st Hst.
  - simpl. rewrite app_nil_r. split; [done|]. split; [|done].
    by intros ?%Exists_nil.
  - rewrite fmap_cons. cbn [foldl frames_out].
    replace (step value st (Frame t)) with
      (let st' := setDisplayValue (currentVal value startTime t) st in
       if progress_lt_1 startTime t then st'
       else setDisplayValue value
              {| displayValue := displayValue st'; observing := observing st';
                 animation := None; emitted := emitted st' |})
      by (simpl; by rewrite Hst).
    cbv zeta. destruct (progress_lt_1 startTime t) as [Hlt|Hge].
    + destruct (IH (setDisplayValue (currentVal value startTime t) st) Hst)
        as (Hout & Hdone & Hrun).
      rewrite Hout. simpl. rewrite <- app_assoc. split; [done|].
      assert (¬ (startTime + duration <= t)%Q) as Ht
        by (intros ?%progress_done_iff; lra).
      split; intros Hex.
      * apply Hdone. by apply Exists_cons in Hex as [?|?].
      * apply Hrun. intros ?. apply Hex. by apply Exists_cons_tl.
    + rewrite frames_idle by done. simpl. rewrite <- app_assoc.
      split; [done|]. split; [done|]. intros Hex. destruct Hex.
      apply Exists_cons_hd. by apply progress_done_iff.
Qed.

Lemma step_shows_last_emitted (st : state) (ev : event) :
  shows_last_emitted st → shows_last_emitted (step value st ev).
Proof.
  unfold shows_last_emitted. intros Hst.
  destruct ev as [isIntersecting now|t]; simpl.
  - destruct (observing st && isIntersecting); [|done]. by case_decide.
  - destruct (animation st) as [t0|]; [|done].
    destruct (progress_lt_1 t0 t); simpl; by rewrite last_snoc.
Qed.

Lemma foldl_shows_last_emitted (st : state) (evs : list event) :
  shows_last_emitted st → shows_last_emitted (foldl (step value) st evs).
Proof.
  revert st. induction evs as [|ev evs IH]; intros st Hst; [done|].
  simpl. by apply IH, step_shows_last_emitted.
Qed.

End Counter.

(** C6. Let the counter become visible at [startTime] and then receive the
    animation frames [ts]. For a target [T > 0] and frame timestamps that do
    not decrease, the values passed to [setDisplayValue] do not decrease and
    none exceeds [T]; as soon as a frame has reached [startTime + 1500] the
    animation is over, and the last value emitted, which is the value
    displayed, is exactly [T]. For [T = 0] nothing is emitted and no frame is
    requested: the display keeps its initial 0. *)
Theorem counter_animation (T : Z) (startTime : Q) (ts : list Q) :
  ∃ st, AnimatedNumber.run true T
          (AnimatedNumber.Intersect true startTime :: (AnimatedNumber.Frame <$> ts))
        = inr st
    ∧ (0 < T → Sorted Qle ts →
         Sorted Z.le (AnimatedNumber.emitted st)
         ∧ Forall (λ v, v <= T) (AnimatedNumber.emitted st)
         ∧ (Exists (λ t, startTime + 1500 <= t)%Q ts →
              last (AnimatedNumber.emitted st) = Some T
              ∧ AnimatedNumber.displayValue st = T
              ∧ AnimatedNumber.animation st = None))
    ∧ (T = 0 →
         AnimatedNumber.emitted st = []
         ∧ AnimatedNumber.displayValue st = 0
         ∧ AnimatedNumber.animation st = None).
Proof.
  eexists. split; [reflexivity|]. simpl. split.
  - intros HT Hts. case_decide; [lia|].
    match goal with |- context [foldl _ ?s _] => set (st0 := s) end.
    destruct (frames_run T startTime st0 ts eq_refl) as (Hout & Hdone & _).
    assert (shows_last_emitted
              (foldl (AnimatedNumber.step T) st0 (AnimatedNumber.Frame <$> ts)))
      as Hshow by by apply foldl_shows_last_emitted.
    unfold shows_last_emitted in Hshow.
    rewrite Hout in *. simpl in *.
    split; [apply frames_out_sorted; [lia|done]|].
    split; [apply frames_out_bounded; lia|].
    intros Hex. rewrite Hshow, (frames_out_last T startTime ts Hex).
    split; [done|]. split; [done|]. by apply Hdone.
  - intros ->. case_decide; [|done]. by rewrite frames_idle.
Qed.

Lemma counter_animation_witness :
  ∃ st, AnimatedNumber.run true 1830
          (AnimatedNumber.Intersect true 1000
             :: (AnimatedNumber.Frame <$> [1016; 1500; 2100; 2500; 2516]%Q))
        = inr st
    ∧ Sorted Z.le (AnimatedNumber.emitted st)
    ∧ Forall (λ v, v <= 1830) (AnimatedNumber.emitted st)
    ∧ last (AnimatedNumber.emitted st) = Some 1830
    ∧ AnimatedNumber.displayValue st = 1830
    ∧ AnimatedNumber.animation st = None.
Proof.
  destruct (counter_animation 1830 1000 [1016; 1500; 2100; 2500; 2516]%Q)
    as (st & Hrun & Hpos & _).
  exists st. split; [exact Hrun|].
  assert (Sorted Qle [1016; 1500; 2100; 2500; 2516]%Q) as Hts
    by (repeat constructor; by vm_compute).
  destruct (Hpos ltac:(lia) Hts) as (Hsorted & Hbound & Hlast).
  split; [exact Hsorted|]. split; [exact Hbound|].
  apply Hlast. apply Exists_cons_tl, Exists_cons_tl, Exists_cons_tl, Exists_cons_hd.
  by vm_compute.
Defined.

(** The run of the witness, frame by frame. *)
Example animation_trace_1830 :
  match AnimatedNumber.run true 1830
          (AnimatedNumber.Intersect true 1000
             :: (AnimatedNumber.Frame <$> [1016; 1500; 2100; 2500; 2516]%Q))
  with
  | inr st => AnimatedNumber.emitted st = [19; 610; 1342; 1830; 1830]
  | inl _ => False
  end.
Proof. by vm_compute. Qed.

(** ** [StatCard] *)

Lemma StatCard_idle_until_intersect (delay : Z) (evs : list StatCard.event)
    (st : StatCard.state) :
  StatCard.isRendered st = false → StatCard.timers st = [] →
  let st' := foldl (StatCard.step delay) st evs in
  StatCard.isRendered st' = true ∨ StatCard.timers st' ≠ [] →
  StatCard.Intersect true ∈ evs.
Proof.
  revert st. induction evs as [|ev evs IH]; intros st Hr Ht; simpl.
  - intros [?|?]; congruence.
  - intros Hst'. destruct ev as [[]|]; simpl in Hst'.
    + apply elem_of_cons. by left.
    + rewrite andb_false_r in Hst'. apply elem_of_cons. right. by eapply IH.
    + rewrite Ht in Hst'. apply elem_of_cons. right. by eapply IH.
Qed.

(** C5, as the code has it. Without [IntersectionObserver] the mount effect
    of a stat card and of an animated counter raises a [ReferenceError],
    whatever happens afterwards, so that nothing is ever triggered. With it,
    a card is mounted hidden, is revealed only after an intersecting
    notification, and is revealed when the timer set by that notification
    fires. *)
Theorem reveal_needs_observer (delay value : Z) :
  (∀ evs, StatCard.run false delay evs = inl ReferenceError)
  ∧ (∀ evs, AnimatedNumber.run false value evs = inl ReferenceError)
  ∧ (∃ st, StatCard.run true delay [] = inr st
       ∧ StatCard.isRendered st = false)
  ∧ (∀ evs st, StatCard.run true delay evs = inr st →
       StatCard.isRendered st = true → StatCard.Intersect true ∈ evs)
  ∧ (∃ st, StatCard.run true delay [StatCard.Intersect true; StatCard.Timeout]
           = inr st
       ∧ StatCard.isRendered st = true).
Proof.
  split; [done|]. split; [done|]. split; [by eexists|]. split; [|by eexists].
  intros evs st [= <-] Hst.
  eapply (StatCard_idle_until_intersect delay evs); [| |by left]; done.
Qed.

Lemma reveal_needs_observer_witness :
  ∃ st, StatCard.run true 100 [StatCard.Intersect true; StatCard.Timeout] = inr st
    ∧ StatCard.isRendered st = true
    ∧ StatCard.Intersect true ∈ [StatCard.Intersect true; StatCard.Timeout].
Proof.
  destruct (reveal_needs_observer 100 1830) as (_ & _ & _ & Honly & st & Hrun & Hst).
  exists st. split; [exact Hrun|]. split; [exact Hst|].
  exact (Honly _ st Hrun Hst).
Defined.

(** Without the observer the mount of a card raises, and no card state
    exists that could be revealed. *)
Lemma no_reveal_without_observer :
  StatCard.run false 100 [] = inl ReferenceError
  ∧ AnimatedNumber.run false 1830 [] = inl ReferenceError
  ∧ ¬ triggered_without_observer 100.
Proof.
  split; [done|]. split; [done|]. by intros (st & Hrun & _).
Qed.

(** * Part IV: further properties of the components *)

(** ** [AnimatedNumber]: one animation per mount *)

Section CounterEvents.
Import AnimatedNumber.
Variable value : Z.

(** Without a running animation, an event changes the state only if it is an
    intersecting notification for a target other than 0. *)
Lemma counter_idle (st : state) (evs : list event) :
  animation st = None →
  value = 0 ∨ (∀ now, Intersect true now ∉ evs) →
  foldl (step value) st evs = st.
Proof.
  intros Hst Hidle. induction evs as [|ev evs IH]; [done|].
  cbn [foldl]. replace (step value st ev) with st.
  - apply IH. destruct Hidle as [?|Hno]; [by left|right].
    intros now Hin. apply (Hno now), elem_of_cons. by right.
  - destruct ev as [b now|t]; simpl; [|by rewrite Hst].
    destruct (observing st); [|done]. destruct b; [|done]. simpl.
    case_decide; [done|]. destruct Hidle as [?|Hno]; [congruence|].
    destruct (Hno now). apply elem_of_cons. by left.
Qed.

(** Once the observer is disconnected and no frame is requested, nothing
    changes the state any more. *)
Lemma counter_finished (st : state) (evs : list event) :
  animation st = None → observing st = false →
  foldl (step value) st evs = st.
Proof.
  intros Hanim Hobs. induction evs as [|ev evs IH]; [done|].
  cbn [foldl]. replace (step value st ev) with st; [done|].
  destruct ev as [b now|t]; simpl; by rewrite ?Hobs, ?Hanim.
Qed.

(** While the animation runs, only frames act, and they act as
    [frames_out] says. *)
Lemma counter_running (startTime : Q) (st : state) (evs : list event) :
  animation st = Some startTime → observing st = false →
  let st' := foldl (step value) st evs in
  emitted st' = emitted st ++ frames_out value startTime (frameTimes evs)
  ∧ observing st' = false
  ∧ (Exists (λ t, startTime + duration <= t)%Q (frameTimes evs) →
       animation st' = None).
Proof.
  revert st. induction evs as [|ev evs IH]; intros st Hanim Hobs.
  - simpl. rewrite app_nil_r. split; [done|]. split; [done|].
    by intros ?%Exists_nil.
  - cbn [foldl]. destruct ev as [b now|t].
    + replace (step value st (Intersect b now)) with st
        by (simpl; by rewrite Hobs).
      apply (IH st Hanim Hobs).
    + change (frameTimes (Frame t :: evs)) with (t :: frameTimes evs).
      cbn [frames_out].
      replace (step value st (Frame t)) with
        (let st' := setDisplayValue (currentVal value startTime t) st in
         if progress_lt_1 startTime t then st'
         else setDisplayValue value
                {| displayValue := displayValue st'; observing := observing st';
                   animation := None; emitted := emitted st' |})
        by (simpl; by rewrite Hanim).
      cbv zeta. destruct (progress_lt_1 startTime t) as [Hlt|Hge].
      * destruct (IH (setDisplayValue (currentVal value startTime t) st)
                    Hanim Hobs) as (Hout & Hobs' & Hdone).
        rewrite Hout. simpl. rewrite <- app_assoc.
        split; [done|]. split; [done|]. intros Hex. apply Hdone.
        apply Exists_cons in Hex as [Ht|?]; [|done].
        apply progress_done_iff in Ht. lra.
      * rewrite counter_finished by done. simpl. rewrite <- app_assoc. done.
Qed.

End CounterEvents.

Section CounterRange.
Import AnimatedNumber.
Variable value : Z.
Variable startTime : Q.

Lemma currentVal_nonneg (t : Q) :
  0 <= value → (startTime <= t)%Q → 0 <= currentVal value startTime t.
Proof.
  intros Hv Ht. unfold currentVal. apply Math_floor_nonneg.
  assert (0 <= inject_Z value)%Q as Hq by by apply inject_Z_nonneg.
  assert (0 <= Qmin ((t - startTime) / duration) 1)%Q as Hp.
  { apply Q.min_glb; [|done]. unfold Qdiv, duration.
    apply Qmult_le_0_compat; [lra|done]. }
  pose proof (Qmult_le_0_compat _ _ Hp Hq). lra.
Qed.

Lemma currentVal_negative (t : Q) :
  0 < value → (t < startTime)%Q → currentVal value startTime t < 0.
Proof.
  intros Hv Ht. unfold currentVal, Math_floor.
  set (p := Qmin ((t - startTime) / duration) 1).
  assert (0 < inject_Z value)%Q as Hq by (unfold Qlt, inject_Z; simpl; lia).
  assert (p < 0)%Q as Hp.
  { eapply Qle_lt_trans; [apply Q.le_min_l|]. unfold Qdiv, duration.
    assert ((t - startTime) * / 1500 == (t - startTime) * (1 # 1500))%Q as ->
      by done.
    lra. }
  pose proof (Qmult_lt_compat_r _ _ _ Hq Hp) as Hneg.
  pose proof (Qfloor_le (p * (inject_Z value - 0) + 0)) as Hfl.
  assert (inject_Z (Qfloor (p * (inject_Z value - 0) + 0)) < inject_Z 0)%Q
    as Hlt by (change (inject_Z 0) with 0%Q; lra).
  by rewrite <- Zlt_Qlt in Hlt.
Qed.

Lemma frames_out_nonneg (ts : list Q) :
  0 <= value → Forall (λ t, startTime <= t)%Q ts →
  Forall (λ v, 0 <= v) (frames_out value startTime ts).
Proof.
  intros Hv. induction 1 as [|t ts Ht _ IH]; simpl; [constructor|].
  destruct (progress_lt_1 startTime t).
  - constructor; [by apply currentVal_nonneg|done].
  - repeat constructor; [by apply currentVal_nonneg|done].
Qed.

End CounterRange.

Lemma counter_run_from_visible (T : Z) (t0 : Q)
    (pre post : list AnimatedNumber.event) :
  T ≠ 0 → (∀ now, AnimatedNumber.Intersect true now ∉ pre) →
  ∃ st, AnimatedNumber.run true T (pre ++ AnimatedNumber.Intersect true t0 :: post)
        = inr st
    ∧ AnimatedNumber.emitted st = frames_out T t0 (frameTimes post)
    ∧ AnimatedNumber.observing st = false
    ∧ shows_last_emitted st
    ∧ (Exists (λ t, t0 + 1500 <= t)%Q (frameTimes post) →
         AnimatedNumber.animation st = None).
Proof.
  intros HT Hpre. eexists. split; [reflexivity|].
  rewrite foldl_app.
  rewrite (counter_idle T _ pre) by (done || by right).
  cbn [foldl]. 
  replace (AnimatedNumber.step T _ (AnimatedNumber.Intersect true t0)) with
    {| AnimatedNumber.displayValue := 0; AnimatedNumber.observing := false;
       AnimatedNumber.animation := Some t0; AnimatedNumber.emitted := [] |}
    by (simpl; by case_decide).
  match goal with |- context [foldl _ ?s _] => set (st0 := s) end.
  destruct (counter_running T t0 st0 post eq_refl eq_refl) as (Hout & Hobs & Hdone).
  split; [by rewrite Hout|]. split; [done|].
  split; [by apply foldl_shows_last_emitted|done].
Qed.

(** X1. A counter animates at most once per mount. Before the first
    intersecting notification nothing is emitted; from then on the values
    passed to [setDisplayValue] are those of the one animation started at that
    notification, computed from the frames that follow, whatever further
    notifications arrive: the observer is disconnected and the animation is
    never restarted. *)
Theorem counter_animates_once (T : Z) (t0 : Q)
    (pre post : list AnimatedNumber.event) :
  T ≠ 0 → (∀ now, AnimatedNumber.Intersect true now ∉ pre) →
  ∃ st, AnimatedNumber.run true T (pre ++ AnimatedNumber.Intersect true t0 :: post)
        = inr st
    ∧ AnimatedNumber.emitted st = frames_out T t0 (frameTimes post)
    ∧ AnimatedNumber.observing st = false.
Proof.
  intros HT Hpre.
  destruct (counter_run_from_visible T t0 pre post HT Hpre)
    as (st & Hrun & Hout & Hobs & _).
  by exists st.
Qed.

Lemma counter_animates_once_witness :
  (∀ now, AnimatedNumber.Intersect true now
          ∉ [AnimatedNumber.Frame 900; AnimatedNumber.Intersect false 950])
  ∧ ∃ st, AnimatedNumber.run true 1830
            ([AnimatedNumber.Frame 900; AnimatedNumber.Intersect false 950]
             ++ AnimatedNumber.Intersect true 1000
             :: [AnimatedNumber.Frame 1016; AnimatedNumber.Intersect true 1200;
                 AnimatedNumber.Frame 1500; AnimatedNumber.Frame 2600;
                 AnimatedNumber.Frame 2700]) = inr st
      ∧ AnimatedNumber.emitted st = [19; 610; 1830; 1830]
      ∧ AnimatedNumber.observing st = false.
Proof.
  assert (∀ now, AnimatedNumber.Intersect true now
                 ∉ [AnimatedNumber.Frame 900; AnimatedNumber.Intersect false 950])
    as Hpre.
  { intros now Hin.
    repeat (apply elem_of_cons in Hin as [Hin|Hin]; [discriminate|]).
    by apply elem_of_nil in Hin. }
  split; [exact Hpre|].
  apply (counter_animates_once 1830 1000
           [AnimatedNumber.Frame 900; AnimatedNumber.Intersect false 950]
           [AnimatedNumber.Frame 1016; AnimatedNumber.Intersect true 1200;
            AnimatedNumber.Frame 1500; AnimatedNumber.Frame 2600;
            AnimatedNumber.Frame 2700]); [lia|exact Hpre].
Defined.

(** X2. Whatever the target (positive, zero or negative) and whatever the
    timing and order of the frames, a counter that has become visible shows
    exactly its target once a frame has reached the end of the 1500 ms, and
    keeps showing it under every later event. *)
Theorem counter_lands_on_target (T : Z) (t0 : Q)
    (pre post : list AnimatedNumber.event) :
  (∀ now, AnimatedNumber.Intersect true now ∉ pre) →
  Exists (λ t, t0 + 1500 <= t)%Q (frameTimes post) →
  ∃ st, AnimatedNumber.run true T (pre ++ AnimatedNumber.Intersect true t0 :: post)
        = inr st
    ∧ AnimatedNumber.displayValue st = T
    ∧ AnimatedNumber.animation st = None.
Proof.
  intros Hpre Hex. destruct (decide (T = 0)) as [->|HT].
  - exists mountedCounter. split; [|done].
    unfold AnimatedNumber.run. simpl AnimatedNumber.mount. cbv iota.
    f_equal. apply counter_idle; [done|by left].
  - destruct (counter_run_from_visible T t0 pre post HT Hpre)
      as (st & Hrun & Hout & _ & Hshow & Hdone).
    exists st. split; [done|]. split; [|by apply Hdone].
    unfold shows_last_emitted in Hshow.
    by rewrite Hshow, Hout, (frames_out_last T t0 _ Hex).
Qed.

Lemma counter_lands_on_target_witness :
  ∃ st, AnimatedNumber.run true 1830
          ([AnimatedNumber.Frame 900]
           ++ AnimatedNumber.Intersect true 1000
           :: [AnimatedNumber.Frame 2600; AnimatedNumber.Frame 1016;
               AnimatedNumber.Intersect true 3000]) = inr st
    ∧ AnimatedNumber.displayValue st = 1830
    ∧ AnimatedNumber.animation st = None.
Proof.
  apply (counter_lands_on_target 1830 1000 [AnimatedNumber.Frame 900]
           [AnimatedNumber.Frame 2600; AnimatedNumber.Frame 1016;
            AnimatedNumber.Intersect true 3000]).
  - intros now Hin.
    repeat (apply elem_of_cons in Hin as [Hin|Hin]; [discriminate|]).
    by apply elem_of_nil in Hin.
  - apply Exists_cons_hd. by vm_compute.
Defined.

(** X3. A counter is inert until it is seen, and a counter whose target is 0
    is inert for ever: frames and notifications leave the mounted state as it
    is (0 on display, nothing emitted, no frame requested), and for the target
    0 the observer is never disconnected. *)
Theorem counter_inert (T : Z) (evs : list AnimatedNumber.event) :
  T = 0 ∨ (∀ now, AnimatedNumber.Intersect true now ∉ evs) →
  AnimatedNumber.run true T evs = inr mountedCounter.
Proof.
  intros Hidle. unfold AnimatedNumber.run. simpl AnimatedNumber.mount.
  cbv iota. f_equal. by apply counter_idle.
Qed.

Lemma counter_inert_witness :
  AnimatedNumber.run true 0
    [AnimatedNumber.Intersect true 1000; AnimatedNumber.Frame 1016;
     AnimatedNumber.Intersect true 4000; AnimatedNumber.Frame 4016]
  = inr mountedCounter.
Proof.
  apply (counter_inert 0). by left.
Defined.

(** X4. For a positive target, while no frame is stamped before the
    [performance.now()] reading of the start, every value shown lies between
    0 and the target. The elapsed time is not clamped at 0: a first frame
    stamped before that reading makes the counter show a negative number. *)
Theorem counter_values_in_range (T : Z) (t0 : Q)
    (pre post : list AnimatedNumber.event) :
  0 < T → (∀ now, AnimatedNumber.Intersect true now ∉ pre) →
  ∃ st, AnimatedNumber.run true T (pre ++ AnimatedNumber.Intersect true t0 :: post)
        = inr st
    ∧ (Forall (λ t, t0 <= t)%Q (frameTimes post) →
         Forall (λ v, 0 <= v <= T) (AnimatedNumber.emitted st))
    ∧ (∀ t, head (frameTimes post) = Some t → (t < t0)%Q →
         ∃ v, head (AnimatedNumber.emitted st) = Some v ∧ v < 0).
Proof.
  intros HT Hpre.
  destruct (counter_run_from_visible T t0 pre post ltac:(lia) Hpre)
    as (st & Hrun & Hout & _).
  exists st. split; [done|]. rewrite Hout. split.
  - intros Hts. apply Forall_and. split.
    + apply frames_out_nonneg; [lia|done].
    + apply frames_out_bounded. lia.
  - intros t Hhd Ht. destruct (frameTimes post) as [|t' ts]; [done|].
    injection Hhd as ->. exists (AnimatedNumber.currentVal T t0 t). split.
    + simpl. by destruct (AnimatedNumber.progress_lt_1 t0 t).
    + by apply currentVal_negative.
Qed.

Lemma counter_values_in_range_witness :
  ∃ st, AnimatedNumber.run true 1830
          ([] ++ AnimatedNumber.Intersect true 1000
              :: [AnimatedNumber.Frame 990; AnimatedNumber.Frame 1016]) = inr st
    ∧ ∃ v, head (AnimatedNumber.emitted st) = Some v ∧ v < 0.
Proof.
  destruct (counter_values_in_range 1830 1000 []
              [AnimatedNumber.Frame 990; AnimatedNumber.Frame 1016])
    as (st & Hrun & _ & Hneg).
  - lia.
  - intros now Hin. by apply elem_of_nil in Hin.
  - exists st. split; [exact Hrun|]. apply (Hneg 990%Q); [reflexivity|by vm_compute].
Defined.

(** ** [StatCard]: when a card is revealed *)

Section CardEvents.
Import StatCard.
Variable delay : Z.

Lemma card_stays_revealed (st : state) (evs : list event) :
  isRendered st = true → isRendered (foldl (step delay) st evs) = true.
Proof.
  revert st. induction evs as [|ev evs IH]; intros st Hst; [done|].
  cbn [foldl]. apply IH. destruct ev as [b|]; simpl.
  - by destruct (observing st && b).
  - by destruct (timers st).
Qed.

(** With a timer pending on a hidden card, the card is revealed exactly when
    a timer fires. *)
Lemma card_armed (st : state) (evs : list event) :
  isRendered st = false → timers st ≠ [] →
  isRendered (foldl (step delay) st evs) = true ↔ Timeout ∈ evs.
Proof.
  revert st. induction evs as [|ev evs IH]; intros st Hr Ht.
  - simpl. rewrite Hr. split; [done|]. by intros ?%elem_of_nil.
  - cbn [foldl]. destruct ev as [b|].
    + rewrite IH.
      * rewrite elem_of_cons. split; [by right|]. by intros [?|?].
      * simpl. by destruct (observing st && b).
      * simpl. destruct (observing st && b); [|done]. simpl.
        by intros [? _]%app_eq_nil.
    + split; [intros _; apply elem_of_cons; by left|]. intros _.
      apply card_stays_revealed. simpl. by destruct (timers st).
Qed.

(** On a hidden card that still observes and has no timer pending. *)
Lemma card_pending (st : state) (evs : list event) :
  isRendered st = false → observing st = true → timers st = [] →
  isRendered (foldl (step delay) st evs) = true
  ↔ ∃ a b c, evs = a ++ Intersect true :: b ++ Timeout :: c.
Proof.
  revert st. induction evs as [|ev evs IH]; intros st Hr Ho Ht.
  - simpl. rewrite Hr. split; [done|]. intros (a & b & c & Heq).
    by destruct a.
  - cbn [foldl].
    assert (ev ≠ Intersect true →
            (∃ a b c, ev :: evs = a ++ Intersect true :: b ++ Timeout :: c)
            ↔ ∃ a b c, evs = a ++ Intersect true :: b ++ Timeout :: c) as Hskip.
    { intros Hev. split; intros (a & b & c & Heq).
      - destruct a as [|e a]; simplify_eq/=. by exists a, b, c.
      - exists (ev :: a), b, c. by rewrite Heq. }
    destruct ev as [[]|].
    + rewrite card_armed.
      * split.
        -- intros (b & c & ->)%list_elem_of_split. by exists [], b, c.
        -- intros (a & b & c & Heq). destruct a as [|e a]; simplify_eq/=.
           ++ apply elem_of_app. right. apply elem_of_cons. by left.
           ++ apply elem_of_app. right. apply elem_of_cons. right.
              apply elem_of_app. right. apply elem_of_cons. by left.
      * simpl. by rewrite Ho.
      * simpl. by rewrite Ho, Ht.
    + rewrite Hskip by done. apply IH; simpl; by rewrite Ho.
    + rewrite Hskip by done. apply IH; simpl; by rewrite Ht.
Qed.

(** The observer is connected exactly while the card is hidden. *)
Lemma card_observes_while_hidden (st : state) (evs : list event) :
  observing st = negb (isRendered st) →
  observing (foldl (step delay) st evs)
  = negb (isRendered (foldl (step delay) st evs)).
Proof.
  revert st. induction evs as [|ev evs IH]; intros st Hst; [done|].
  cbn [foldl]. apply IH. destruct ev as [b|]; simpl.
  - by destruct (observing st && b).
  - by destruct (timers st).
Qed.

End CardEvents.

(** X5. A stat card is revealed exactly when, among the events it has
    received, a timer fires after an intersecting notification: a
    notification alone does not reveal it, a timer cannot fire before one, and
    a card once revealed stays revealed. The delay of the card plays no part
    in whether it is revealed. *)
Theorem StatCard_revealed_iff (delay : Z) (evs : list StatCard.event) :
  ∃ st, StatCard.run true delay evs = inr st
    ∧ (StatCard.isRendered st = true
       ↔ ∃ a b c, evs = a ++ StatCard.Intersect true :: b
                          ++ StatCard.Timeout :: c).
Proof.
  eexists. split; [reflexivity|]. by apply card_pending.
Qed.

(** X6. The observer of a stat card is connected exactly while the card is
    hidden: it is disconnected by the timer callback that reveals the card,
    not by the notification, so that a card scrolled in and out before its
    delay has elapsed sets one timer for each intersecting notification. *)
Theorem StatCard_observer_released_on_reveal (delay : Z)
    (evs : list StatCard.event) (n : nat) :
  (∃ st, StatCard.run true delay evs = inr st
     ∧ StatCard.observing st = negb (StatCard.isRendered st))
  ∧ ∃ st, StatCard.run true delay (replicate n (StatCard.Intersect true)) = inr st
      ∧ StatCard.timers st = replicate n delay
      ∧ StatCard.isRendered st = false.
Proof.
  split.
  - eexists. split; [reflexivity|]. by apply card_observes_while_hidden.
  - eexists. split; [reflexivity|].
    assert (∀ ts, let st := foldl (StatCard.step delay)
                    {| StatCard.isRendered := false; StatCard.observing := true;
                       StatCard.timers := ts |}
                    (replicate n (StatCard.Intersect true)) in
                  StatCard.timers st = ts ++ replicate n delay
                  ∧ StatCard.isRendered st = false) as Hgen.
    { induction n as [|n IH]; intros ts; simpl.
      - by rewrite app_nil_r.
      - destruct (IH (ts ++ [delay])) as [Ht Hr].
        split; [|done]. by rewrite Ht, <- app_assoc. }
    apply (Hgen []).
Qed.

(** ** [LifeGrid]: the lived units *)

Lemma LifeGrid_filter_lived (weeksLived : Z) (m : nat) :
  filter (λ u, LifeGrid.isLived u = true)
    ((λ i : nat, LifeGrid.cell weeksLived (Z.of_nat i)) <$> seq 0 m)
  = (λ i : nat, LifeGrid.cell weeksLived (Z.of_nat i))
      <$> seq 0 (m `min` Z.to_nat weeksLived).
Proof.
  induction m as [|m IH]; [done|].
  rewrite seq_S, fmap_app, filter_app, IH. cbn [fmap list_fmap Nat.add].
  destruct (decide (m < Z.to_nat weeksLived)%nat) as [Hlt|Hge].
  - rewrite filter_cons_True by (simpl; apply Z.ltb_lt; lia).
    replace (S m `min` Z.to_nat weeksLived)%nat with (S m) by lia.
    replace (m `min` Z.to_nat weeksLived)%nat with m by lia.
    by rewrite seq_S, fmap_app.
  - rewrite filter_cons_False
      by (simpl; rewrite not_true_iff_false; apply Z.ltb_ge; lia).
    rewrite filter_nil, app_nil_r. f_equal. f_equal. lia.
Qed.

(** X7. The lived units of the grid are its first [weeksLived] units, cut
    off at the capacity of the grid: none for a [weeksLived] of zero or
    below, all 4680 for a [weeksLived] beyond the capacity. The nine decade
    markers do not depend on [weeksLived]. *)
Theorem LifeGrid_lived_prefix (weeksLived : Z) :
  filter (λ u, LifeGrid.isLived u = true) (LifeGrid.grid weeksLived)
  = take (Z.to_nat weeksLived) (LifeGrid.grid weeksLived)
  ∧ Z.of_nat (length (filter (λ u, LifeGrid.isLived u = true)
                        (LifeGrid.grid weeksLived)))
    = Z.min (Z.max 0 weeksLived) TOTAL_WEEKS
  ∧ LifeGrid.key <$> filter (λ u, LifeGrid.isDecadeMarker u = true)
                       (LifeGrid.grid weeksLived)
    = [519; 1039; 1559; 2079; 2599; 3119; 3639; 4159; 4679].
Proof.
  unfold LifeGrid.grid. rewrite LifeGrid_filter_lived.
  split; [|split].
  - by rewrite <- fmap_take, take_seq, Nat.min_comm.
  - rewrite length_fmap, length_seq.
    change (Z.to_nat TOTAL_WEEKS) with 4680%nat.
    change TOTAL_WEEKS with 4680. lia.
  - by vm_compute.
Qed.

(** ** [calculateLifeStats]: the reference tables *)

(** X8. [iphoneModels] counts the release years from the birth year on:
    all 18 for a birth year up to 2007, one fewer for each later birth year,
    and none from 2025 on; so it never grows with the birth year. *)
Theorem iphoneModels_closed_form (birthYear : Z) :
  iphoneModels birthYear = Z.max 0 (Z.min 18 (2025 - birthYear))
  ∧ ∀ later, birthYear <= later → iphoneModels later <= iphoneModels birthYear.
Proof.
  assert (∀ y, iphoneModels y = Z.max 0 (Z.min 18 (2025 - y))) as Hform.
  { intros y. unfold iphoneModels, IPHONE_RELEASES.
    repeat (rewrite filter_cons; case_decide; try (exfalso; lia)).
    all: rewrite filter_nil; simpl; lia. }
  split; [apply Hform|]. intros later Hle. rewrite !Hform. lia.
Qed.

Lemma iphoneModels_closed_form_witness :
  iphoneModels 2010 <= iphoneModels 1990 ∧ iphoneModels 1990 = 18.
Proof.
  destruct (iphoneModels_closed_form 1990) as [Hform Hmono].
  split; [apply Hmono; lia|exact Hform].
Defined.

Lemma filter_chronological_all (birthYear : Z) (p : president)
    (table : list president) :
  chronological (p :: table) → inLifetime birthYear p →
  filter (inLifetime birthYear) (p :: table) = p :: table.
Proof.
  intros [Hterm Hsorted] Hin.
  apply filter_Forall_id, Forall_forall. intros q Hq.
  apply elem_of_cons in Hq as [->|Hq]; [done|].
  apply Forall_cons in Hterm as [Hp Hterm].
  apply StronglySorted_inv in Hsorted as [_ Hlater].
  rewrite Forall_forall in Hlater, Hterm.
  apply inLifetime_iff_ends_after; [by apply Hterm|].
  apply inLifetime_iff_ends_after in Hin; [|done].
  specialize (Hlater q Hq). specialize (Hterm q Hq). simpl in Hlater. lia.
Qed.

Lemma filter_chronological_later (birthYear later : Z) (table : list president) :
  chronological table → birthYear <= later →
  filter (inLifetime later) table `suffix_of` filter (inLifetime birthYear) table.
Proof.
  intros Hchron Hle. induction table as [|p table IH]; [done|].
  destruct (decide (inLifetime birthYear p)) as [Hin|Hout].
  - rewrite (filter_chronological_all birthYear p table) by done.
    destruct (filter_chronological_drop later (p :: table) Hchron) as [k ->].
    apply suffix_drop.
  - destruct Hchron as [Hterm Hsorted].
    apply Forall_cons in Hterm as [Hp Hterm].
    apply StronglySorted_inv in Hsorted as [Hsorted _].
    assert (¬ inLifetime later p) as Hout'.
    { rewrite inLifetime_iff_ends_after in Hout |- * by done. lia. }
    rewrite !filter_cons_False by done. apply IH. by split.
Qed.

(** X9. How [presidentsInLifetime] depends on the birth year: the list is
    empty exactly from the birth year 2025 on, it is the whole table exactly
    for a birth year before 1981, it ends with the last entry of the table
    whenever it is not empty, and the list of a later birth year is a suffix
    of the list of an earlier one. *)
Theorem presidents_by_birth_year (birthYear : Z) :
  (presidentsInLifetime birthYear = [] ↔ 2025 <= birthYear)
  ∧ (presidentsInLifetime birthYear = name <$> US_PRESIDENTS ↔ birthYear < 1981)
  ∧ (birthYear < 2025 → last (presidentsInLifetime birthYear) = Some "Joe Biden")
  ∧ ∀ later, birthYear <= later →
      presidentsInLifetime later `suffix_of` presidentsInLifetime birthYear.
Proof.
  split; [|split; [|split]].
  4: { intros later Hle. unfold presidentsInLifetime.
       destruct (filter_chronological_later birthYear later US_PRESIDENTS
                   US_PRESIDENTS_chronological Hle) as [k ->].
       rewrite fmap_app. by eexists. }
  all: unfold presidentsInLifetime, US_PRESIDENTS;
    repeat (rewrite filter_cons; case_decide;
            try (exfalso; unfold inLifetime in *; simpl in *; lia));
    rewrite filter_nil; unfold inLifetime in *; simpl in *;
    try (split; intros; (done || lia));
    try (intros; (done || lia)).
Qed.

Lemma presidents_by_birth_year_witness :
  last (presidentsInLifetime 1990) = Some "Joe Biden"
  ∧ presidentsInLifetime 2010 `suffix_of` presidentsInLifetime 1990.
Proof.
  destruct (presidents_by_birth_year 1990) as (_ & _ & Hlast & Hlater).
  split; [apply Hlast; lia|apply Hlater; lia].
Defined.

(** ** [calculateLifeStats]: time *)

Lemma inject_Z_le (a b : Z) : a <= b → (inject_Z a <= inject_Z b)%Q.
Proof. intros Hab. by rewrite <- Zle_Qle. Qed.

Lemma lifeStats_day_counts_mono
    (msLived msLived' birthYear birthYear' nowYear nowYear' : Z) (k : string) :
  msLived <= msLived' → k ∈ dayFields →
  ∃ n n', lifeStats msLived birthYear nowYear !! k = Some (VNum n)
    ∧ lifeStats msLived' birthYear' nowYear' !! k = Some (VNum n')
    ∧ n <= n'.
Proof.
  intros Hms Hk.
  assert (Hdays : daysLivedOf msLived <= daysLivedOf msLived')
    by (apply Z.div_le_mono; [by unfold JSDate.msPerDay|done]).
  unfold dayFields in Hk.
  repeat (apply elem_of_cons in Hk as [->|Hk]); [..|by apply elem_of_nil in Hk];
    do 2 eexists; (split; [|split]);
    [ apply lifeStats_weeksLived | apply lifeStats_weeksLived |
    | apply lifeStats_heartbeats | apply lifeStats_heartbeats |
    | apply lifeStats_fullMoons | apply lifeStats_fullMoons |
    | apply lifeStats_kmTraveledAroundSun | apply lifeStats_kmTraveledAroundSun |
    | apply lifeStats_mealsEaten | apply lifeStats_mealsEaten | ].
  - apply Z.div_le_mono; lia.
  - lia.
  - apply Qfloor_resp_le. unfold Qdiv.
    apply Qmult_le_compat_r; [by apply inject_Z_le|done].
  - apply Qfloor_resp_le.
    apply Qmult_le_compat_r; [apply inject_Z_le; lia|done].
  - lia.
Qed.

Lemma lifeStats_year_counts_mono
    (msLived msLived' birthYear nowYear nowYear' : Z) (k : string) :
  nowYear <= nowYear' → k ∈ yearFields →
  ∃ n n', lifeStats msLived birthYear nowYear !! k = Some (VNum n)
    ∧ lifeStats msLived' birthYear nowYear' !! k = Some (VNum n')
    ∧ n <= n'.
Proof.
  intros Hyear Hk. unfold yearFields in Hk.
  repeat (apply elem_of_cons in Hk as [->|Hk]); [..|by apply elem_of_nil in Hk];
    do 2 eexists; (split; [|split]);
    [ apply lifeStats_earthRevolutions | apply lifeStats_earthRevolutions |
    | apply lifeStats_hoursSlept | apply lifeStats_hoursSlept |
    | apply lifeStats_dreams | apply lifeStats_dreams |
    | apply lifeStats_peopleMet | apply lifeStats_peopleMet | ];
    rewrite ?peopleMet_linear; lia.
Qed.

(** X10. For a fixed birth date the counts derived from [daysLived] only
    grow with the clock, and [presidentsInLifetime] and [iphoneModels], which
    depend on the birth year alone, do not change. The counts derived from
    [yearsLived] grow too whenever the local year of the later instant is not
    before the local year of the earlier one, which holds whenever local time
    has not gone back between the two. *)
Theorem counts_grow_with_time (h : Host) (s : string) (birthDate later : Z) :
  Date_parse h s = Some birthDate →
  birthDate <= Date_now h → Date_now h <= later →
  ∃ stats stats', calculateLifeStats h s = Some stats
    ∧ calculateLifeStats (hostAt h later) s = Some stats'
    ∧ (∀ k, k ∈ dayFields →
         ∃ n n', stats !! k = Some (VNum n) ∧ stats' !! k = Some (VNum n')
           ∧ n <= n')
    ∧ (JSDate.getFullYear (LocalTZA h) (Date_now h)
       <= JSDate.getFullYear (LocalTZA h) later →
         ∀ k, k ∈ yearFields →
         ∃ n n', stats !! k = Some (VNum n) ∧ stats' !! k = Some (VNum n')
           ∧ n <= n')
    ∧ (Date_now h + LocalTZA h (Date_now h) <= later + LocalTZA h later →
         JSDate.getFullYear (LocalTZA h) (Date_now h)
         <= JSDate.getFullYear (LocalTZA h) later)
    ∧ stats' !! "presidentsInLifetime" = stats !! "presidentsInLifetime"
    ∧ stats' !! "iphoneModels" = stats !! "iphoneModels".
Proof.
  intros Hs Ht Hlater. do 2 eexists.
  split; [by apply calculateLifeStats_lived|].
  split; [apply (calculateLifeStats_lived (hostAt h later)); simpl; [done|lia]|].
  simpl. split; [|split; [|split; [|split]]].
  - intros k Hk. apply lifeStats_day_counts_mono; [lia|done].
  - intros Hyear k Hk. by apply lifeStats_year_counts_mono.
  - apply getFullYear_mono.
  - by rewrite !lifeStats_presidentsInLifetime.
  - by rewrite !lifeStats_iphoneModels.
Qed.

Lemma counts_grow_with_time_witness :
  ∃ stats stats', calculateLifeStats IsoHost.host "1990-05-15" = Some stats
    ∧ calculateLifeStats (hostAt IsoHost.host 1781524800000) "1990-05-15"
      = Some stats'
    ∧ (∀ k, k ∈ dayFields →
         ∃ n n', stats !! k = Some (VNum n) ∧ stats' !! k = Some (VNum n')
           ∧ n <= n')
    ∧ (2025 <= 2026 →
         ∀ k, k ∈ yearFields →
         ∃ n n', stats !! k = Some (VNum n) ∧ stats' !! k = Some (VNum n')
           ∧ n <= n')
    ∧ (1749988800000 + -18000000 <= 1781524800000 + -18000000 → 2025 <= 2026)
    ∧ stats' !! "presidentsInLifetime" = stats !! "presidentsInLifetime"
    ∧ stats' !! "iphoneModels" = stats !! "iphoneModels".
Proof.
  apply (counts_grow_with_time IsoHost.host "1990-05-15" 642729600000
           1781524800000); [reflexivity| |]; unfold IsoHost.host; simpl; lia.
Defined.

Section CalendarYears.
Import JSDate.

Lemma DayFromYear_next (y : Z) :
  365 <= DayFromYear (y + 1) - DayFromYear y <= 366.
Proof. unfold DayFromYear. Z.div_mod_to_equations. lia. Qed.

Lemma DayFromYear_span (y : Z) (n : nat) :
  365 * Z.of_nat n <= DayFromYear (y + Z.of_nat n) - DayFromYear y
  <= 366 * Z.of_nat n.
Proof.
  induction n as [|n IH].
  - replace (y + Z.of_nat 0) with y by lia. lia.
  - replace (y + Z.of_nat (S n)) with (y + Z.of_nat n + 1) by lia.
    pose proof (DayFromYear_next (y + Z.of_nat n)). lia.
Qed.

Lemma DayFromYear_between (y1 y2 : Z) :
  y1 <= y2 →
  365 * (y2 - y1) <= DayFromYear y2 - DayFromYear y1 <= 366 * (y2 - y1).
Proof.
  intros Hy. pose proof (DayFromYear_span y1 (Z.to_nat (y2 - y1))) as H.
  rewrite Z2Nat.id in H by lia. by replace (y1 + (y2 - y1)) with y2 in H by lia.
Qed.

(** The year of a day is the only year whose days include it. *)
Lemma YearFromDay_unique (d y : Z) :
  DayFromYear y <= d < DayFromYear (y + 1) → YearFromDay d = y.
Proof.
  intros Hy. pose proof (YearFromDay_spec d) as Hd.
  assert (YearFromDay d < y + 1) by (apply DayFromYear_lt_inv; lia).
  assert (y < YearFromDay d + 1) by (apply DayFromYear_lt_inv; lia).
  lia.
Qed.

(** Years against days when both instants are read with one offset. *)
Lemma years_days_bound (o t now : Z) :
  t <= now →
  let y := YearFromTime (now + o) - YearFromTime (t + o) in
  let d := (now - t) / msPerDay in
  365 * (y - 1) <= d < 366 * (y + 1).
Proof.
  intros Ht y d. subst y d. unfold YearFromTime, Day.
  set (db := (t + o) / msPerDay). set (dn := (now + o) / msPerDay).
  assert (dn - db - 1 <= (now - t) / msPerDay <= dn - db) as Hd.
  { subst db dn. unfold msPerDay. Z.div_mod_to_equations. lia. }
  assert (db <= dn) as Hle
    by (subst db dn; apply Z.div_le_mono; [by unfold msPerDay|lia]).
  pose proof (YearFromDay_mono _ _ Hle) as Hy.
  pose proof (YearFromDay_spec db) as Hb.
  pose proof (YearFromDay_spec dn) as Hn.
  pose proof (DayFromYear_between (YearFromDay db) (YearFromDay dn + 1)
                ltac:(lia)) as Hup.
  destruct (decide (YearFromDay db = YearFromDay dn)) as [Heq|Hne].
  - rewrite Heq in *. lia.
  - pose proof (DayFromYear_between (YearFromDay db + 1) (YearFromDay dn)
                  ltac:(lia)) as Hlow.
    lia.
Qed.

(** Years against days when the two instants are read with offsets that
    differ, each within a day of UTC. *)
Lemma years_days_bound_zones (o1 o2 t now : Z) :
  t <= now →
  - msPerDay <= o1 <= msPerDay → - msPerDay <= o2 <= msPerDay →
  let y := YearFromTime (now + o2) - YearFromTime (t + o1) in
  let d := (now - t) / msPerDay in
  365 * (y - 1) - 2 <= d <= 366 * (y + 1) + 1.
Proof.
  intros Ht Ho1 Ho2 y d. subst y d. unfold YearFromTime, Day.
  set (db := (t + o1) / msPerDay). set (dn := (now + o2) / msPerDay).
  assert (0 <= (now - t) / msPerDay) as Hpos
    by (apply Z.div_pos; [lia|by unfold msPerDay]).
  assert ((now - t) / msPerDay - 2 <= dn - db <= (now - t) / msPerDay + 3) as Hd.
  { subst db dn. unfold msPerDay in *. Z.div_mod_to_equations. lia. }
  pose proof (YearFromDay_spec db) as Hb.
  pose proof (YearFromDay_spec dn) as Hn.
  pose proof (DayFromYear_next (YearFromDay db)) as Hb1.
  pose proof (DayFromYear_next (YearFromDay db - 1)) as Hb0.
  replace (YearFromDay db - 1 + 1) with (YearFromDay db) in Hb0 by lia.
  destruct (Z.lt_trichotomy (YearFromDay dn) (YearFromDay db)) as [Hlt|[Heq|Hgt]].
  - destruct (decide (YearFromDay dn = YearFromDay db - 1)) as [Hone|Hmore].
    + rewrite Hone in *.
      replace (YearFromDay db - 1 + 1) with (YearFromDay db) in Hn by lia. lia.
    + pose proof (DayFromYear_mono (YearFromDay dn + 1) (YearFromDay db - 1)
                    ltac:(lia)). lia.
  - rewrite Heq in *. lia.
  - pose proof (DayFromYear_between (YearFromDay db + 1) (YearFromDay dn)
                  ltac:(lia)) as Hlow.
    pose proof (DayFromYear_between (YearFromDay db) (YearFromDay dn + 1)
                  ltac:(lia)) as Hup.
    lia.
Qed.

End CalendarYears.

(** X11. [earthRevolutions] is the difference of the local calendar years,
    not the number of elapsed years. When the zone offset is the same at the
    birth instant and now, it can be one more than the whole years lived
    (born on 31 December, seen on 1 January) and is never further off:
    [365 * (earthRevolutions - 1) <= daysLived < 366 * (earthRevolutions + 1)],
    and [hoursSlept], which is 2920 times it, exceeds eight hours for each
    day lived by at most the 2920 hours of one year. When the two offsets
    differ, each within a day of UTC, the same holds up to three days:
    [365 * (earthRevolutions - 1) - 2 <= daysLived <= 366 * (earthRevolutions + 1) + 1]. *)
Theorem earthRevolutions_within_a_year (h : Host) (s : string) (birthDate : Z) :
  Date_parse h s = Some birthDate →
  birthDate <= Date_now h →
  let daysLived := (Date_now h - birthDate) / (1000 * 60 * 60 * 24) in
  let day := 1000 * 60 * 60 * 24 in
  ∃ stats y, calculateLifeStats h s = Some stats
    ∧ stats !! "earthRevolutions" = Some (VNum y)
    ∧ stats !! "hoursSlept" = Some (VNum (2920 * y))
    ∧ (LocalTZA h birthDate = LocalTZA h (Date_now h) →
         365 * (y - 1) <= daysLived < 366 * (y + 1)
         ∧ 2920 * y <= 8 * daysLived + 2920)
    ∧ (- day <= LocalTZA h birthDate <= day →
       - day <= LocalTZA h (Date_now h) <= day →
         365 * (y - 1) - 2 <= daysLived <= 366 * (y + 1) + 1).
Proof.
  intros Hs Ht daysLived day. do 2 eexists.
  split; [by apply calculateLifeStats_lived|].
  split; [apply lifeStats_earthRevolutions|].
  split; [rewrite lifeStats_hoursSlept; do 2 f_equal; lia|].
  unfold JSDate.getFullYear. split.
  - intros Heq. rewrite Heq.
    pose proof (years_days_bound (LocalTZA h (Date_now h)) birthDate
                  (Date_now h) Ht) as Hb.
    cbv zeta in Hb. change JSDate.msPerDay with (1000 * 60 * 60 * 24) in Hb.
    fold daysLived in Hb. lia.
  - intros Ho1 Ho2.
    pose proof (years_days_bound_zones (LocalTZA h birthDate)
                  (LocalTZA h (Date_now h)) birthDate (Date_now h) Ht Ho1 Ho2)
      as Hb.
    cbv zeta in Hb. change JSDate.msPerDay with (1000 * 60 * 60 * 24) in Hb.
    by fold daysLived in Hb.
Qed.

Lemma earthRevolutions_within_a_year_witness :
  ∃ stats y, calculateLifeStats (hostAt IsoHost.host 978325200000) "2000-12-31"
             = Some stats
    ∧ stats !! "earthRevolutions" = Some (VNum y)
    ∧ stats !! "hoursSlept" = Some (VNum (2920 * y))
    ∧ (-18000000 = -18000000 →
         365 * (y - 1) <= 1 < 366 * (y + 1) ∧ 2920 * y <= 8 * 1 + 2920)
    ∧ (- 86400000 <= -18000000 <= 86400000 →
       - 86400000 <= -18000000 <= 86400000 →
         365 * (y - 1) - 2 <= 1 <= 366 * (y + 1) + 1).
Proof.
  apply (earthRevolutions_within_a_year (hostAt IsoHost.host 978325200000)
           "2000-12-31" 978220800000); [reflexivity|]. simpl. lia.
Defined.

(** When the offset has changed in between, the bound for one offset does
    not hold: in Almaty a birth at 00:10 on 1 January 2024 seen at 23:50 on
    31 December 2024 has lived 366 days in no completed calendar year. *)
Example leap_year_without_orbit :
  let r := calculateLifeStats IsoHost.almaty2024 "2023-12-31T18:10:00Z" in
  r ≫= (.!! "earthRevolutions") = Some (VNum 0)
  ∧ r ≫= (.!! "mealsEaten") = Some (VNum (3 * 366)).
Proof. by vm_compute. Qed.

(** The record of the witness: born on 31 December 2000 (UTC midnight, which
    is the evening of 30 December in the zone of the host), seen on
    1 January 2001, one orbit and 2920 hours of sleep after one day. *)
Example one_day_one_orbit :
  let r := calculateLifeStats (hostAt IsoHost.host 978325200000) "2000-12-31" in
  r ≫= (.!! "earthRevolutions") = Some (VNum 1)
  ∧ r ≫= (.!! "mealsEaten") = Some (VNum 3)
  ∧ r ≫= (.!! "hoursSlept") = Some (VNum 2920).
Proof. by vm_compute. Qed.

(** X12. A birth date less than a day before the current instant gives 0 for
    every count derived from [daysLived]; a birth date that is the current
    instant itself gives 0 for the counts derived from [yearsLived] too. *)
Theorem newborn_counts_zero (h : Host) (s : string) (birthDate : Z) :
  Date_parse h s = Some birthDate →
  birthDate <= Date_now h < birthDate + 1000 * 60 * 60 * 24 →
  ∃ stats, calculateLifeStats h s = Some stats
    ∧ (∀ k, k ∈ dayFields → stats !! k = Some (VNum 0))
    ∧ (birthDate = Date_now h →
         ∀ k, k ∈ yearFields → stats !! k = Some (VNum 0)).
Proof.
  intros Hs Ht. eexists. split; [apply calculateLifeStats_lived; [done|lia]|].
  assert (daysLivedOf (Date_now h - birthDate) = 0) as Hd
    by (unfold daysLivedOf, JSDate.msPerDay; apply Z.div_small; lia).
  split.
  - intros k Hk. unfold dayFields in Hk.
    repeat (apply elem_of_cons in Hk as [->|Hk]); [..|by apply elem_of_nil in Hk].
    + by rewrite lifeStats_weeksLived, Hd.
    + by rewrite lifeStats_heartbeats, Hd.
    + by rewrite lifeStats_fullMoons, Hd.
    + by rewrite lifeStats_kmTraveledAroundSun, Hd.
    + by rewrite lifeStats_mealsEaten, Hd.
  - intros <- k Hk. unfold yearFields in Hk.
    repeat (apply elem_of_cons in Hk as [->|Hk]); [..|by apply elem_of_nil in Hk].
    + by rewrite lifeStats_earthRevolutions, Z.sub_diag.
    + by rewrite lifeStats_hoursSlept, Z.sub_diag.
    + by rewrite lifeStats_dreams, Z.sub_diag.
    + by rewrite lifeStats_peopleMet, Z.sub_diag.
Qed.

Lemma newborn_counts_zero_witness :
  ∃ stats, calculateLifeStats IsoHost.host "2025-06-15" = Some stats
    ∧ (∀ k, k ∈ dayFields → stats !! k = Some (VNum 0))
    ∧ (1749945600000 = Date_now IsoHost.host →
         ∀ k, k ∈ yearFields → stats !! k = Some (VNum 0)).
Proof.
  apply (newborn_counts_zero IsoHost.host "2025-06-15" 1749945600000);
    [reflexivity|]. unfold IsoHost.host. simpl. lia.
Defined.

(** X13. A date without a time is read as midnight UTC, while
    [getFullYear] reads the local calendar. For a birth date of 1 January in
    a zone that was behind UTC at that instant the birth year of the record
    is therefore the previous year, with one more orbit and the tables
    filtered from that year; in a zone that was at or ahead of UTC at that
    instant it is the year of the date. *)
Theorem new_year_birth_year (h : Host) (s : string) (Y : Z) :
  Date_parse h s = Some (JSDate.msPerDay * JSDate.DayFromYear Y) →
  JSDate.msPerDay * JSDate.DayFromYear Y <= Date_now h →
  let birthOffset := LocalTZA h (JSDate.msPerDay * JSDate.DayFromYear Y) in
  let nowYear := JSDate.getFullYear (LocalTZA h) (Date_now h) in
  ∃ stats, calculateLifeStats h s = Some stats
    ∧ (- JSDate.msPerDay <= birthOffset < 0 →
         stats !! "earthRevolutions" = Some (VNum (nowYear - (Y - 1)))
         ∧ stats !! "iphoneModels" = Some (VNum (iphoneModels (Y - 1)))
         ∧ stats !! "presidentsInLifetime"
           = Some (VNames (presidentsInLifetime (Y - 1))))
    ∧ (0 <= birthOffset < JSDate.msPerDay →
         stats !! "earthRevolutions" = Some (VNum (nowYear - Y))
         ∧ stats !! "iphoneModels" = Some (VNum (iphoneModels Y))
         ∧ stats !! "presidentsInLifetime"
           = Some (VNames (presidentsInLifetime Y))).
Proof.
  intros Hs Ht birthOffset nowYear. eexists.
  split; [by apply calculateLifeStats_lived|].
  rewrite lifeStats_earthRevolutions, lifeStats_iphoneModels,
    lifeStats_presidentsInLifetime.
  pose proof (DayFromYear_next Y) as Hnext.
  pose proof (DayFromYear_next (Y - 1)) as Hprev.
  replace (Y - 1 + 1) with Y in Hprev by lia.
  split; intros Htza.
  - assert (JSDate.getFullYear (LocalTZA h)
              (JSDate.msPerDay * JSDate.DayFromYear Y) = Y - 1) as ->; [|done].
    apply YearFromDay_unique. replace (Y - 1 + 1) with Y by lia.
    fold birthOffset. unfold JSDate.Day, JSDate.msPerDay in *.
    set (d := JSDate.DayFromYear Y) in *.
    set (d' := JSDate.DayFromYear (Y - 1)) in *.
    assert ((86400000 * d + birthOffset) / 86400000 = d - 1) as ->; [|lia].
    Z.div_mod_to_equations. lia.
  - assert (JSDate.getFullYear (LocalTZA h)
              (JSDate.msPerDay * JSDate.DayFromYear Y) = Y) as ->; [|done].
    apply YearFromDay_unique.
    fold birthOffset. unfold JSDate.Day, JSDate.msPerDay in *.
    set (d := JSDate.DayFromYear Y) in *.
    set (d' := JSDate.DayFromYear (Y + 1)) in *.
    assert ((86400000 * d + birthOffset) / 86400000 = d) as ->; [|lia].
    Z.div_mod_to_equations. lia.
Qed.

Lemma new_year_birth_year_witness :
  ∃ stats, calculateLifeStats IsoHost.host "2000-01-01" = Some stats
    ∧ stats !! "earthRevolutions" = Some (VNum (2025 - (2000 - 1)))
    ∧ stats !! "iphoneModels" = Some (VNum (iphoneModels (2000 - 1)))
    ∧ stats !! "presidentsInLifetime"
      = Some (VNames (presidentsInLifetime (2000 - 1))).
Proof.
  destruct (new_year_birth_year IsoHost.host "2000-01-01" 2000)
    as (stats & Hstats & Hbehind & _); [reflexivity|by vm_compute|].
  exists stats. split; [exact Hstats|]. apply Hbehind. by vm_compute.
Defined.

(** ** The screens *)

Section Screens.
Variable h : Host.

Lemma render_null (s : string) :
  s = "" ∨ Date_parse h s = None →
  VisualizationScreen.render h s = VisualizationScreen.Calculating.
Proof.
  intros Hs. unfold VisualizationScreen.render.
  by rewrite calculateLifeStats_null.
Qed.

Lemma render_future (s : string) (t : Z) :
  Date_parse h s = Some t → Date_now h < t →
  VisualizationScreen.render h s = VisualizationScreen.FutureMessage.
Proof.
  intros Hs Ht. unfold VisualizationScreen.render.
  by rewrite (calculateLifeStats_future h s t), lookup_singleton_eq.
Qed.

Lemma render_lived (s : string) (t : Z) :
  Date_parse h s = Some t → t <= Date_now h →
  let stats := lifeStats (Date_now h - t)
                 (JSDate.getFullYear (LocalTZA h) t)
                 (JSDate.getFullYear (LocalTZA h) (Date_now h)) in
  VisualizationScreen.render h s
  = VisualizationScreen.Page (stats !! "weeksLived")
      (VisualizationScreen.statCards stats) (stats !! "presidentsInLifetime").
Proof.
  intros Hs Ht stats. unfold VisualizationScreen.render.
  rewrite (calculateLifeStats_lived h s t) by done. subst stats.
  by rewrite lifeStats_isFuture.
Qed.

End Screens.

(** X14. Submitting the form of the date input: an empty field changes
    nothing; any other text is stored and decides the screen. A text that
    does not parse gives the "calculating" placeholder, a date after the
    current instant the future message, and a date at or before it the page.
    The theme is kept. *)
Theorem submit_selects_screen (h : Host) (st : App.state) (input : string) :
  App.birthDate st = None →
  let st' := App.step h st (App.Submit input) in
  App.theme st' = App.theme st
  ∧ (input = "" → st' = st ∧ App.render h st' = App.DateInput)
  ∧ (input ≠ "" → Date_parse h input = None →
       App.render h st'
       = App.Visualization VisualizationScreen.Calculating)
  ∧ (∀ t, Date_parse h input = Some t → Date_now h < t →
       App.render h st'
       = App.Visualization VisualizationScreen.FutureMessage)
  ∧ (∀ t, Date_parse h input = Some t → t <= Date_now h →
       ∃ weeksLived cards presidents,
         App.render h st'
         = App.Visualization
             (VisualizationScreen.Page weeksLived cards presidents)).
Proof.
  intros Hst st'.
  assert (App.render h st = App.DateInput) as Hscreen
    by (unfold App.render; by rewrite Hst).
  assert (input ≠ "" →
          st' = App.handleDateSubmit input st
          ∧ App.render h st'
            = App.Visualization (VisualizationScreen.render h input))
    as Hstored.
  { intros Hne. subst st'. unfold App.step. rewrite Hscreen.
    case_decide; [done|]. split; [done|]. unfold App.render. simpl.
    by case_decide. }
  assert (input = "" → st' = st) as Hempty.
  { intros ->. subst st'. unfold App.step. by rewrite Hscreen. }
  split; [|split; [|split; [|split]]].
  - destruct (decide (input = "")) as [Heq|Hne].
    + by rewrite Hempty.
    + by destruct (Hstored Hne) as [-> _].
  - intros Heq. rewrite (Hempty Heq). done.
  - intros Hne Hparse. destruct (Hstored Hne) as [_ ->].
    rewrite render_null; [done|by right].
  - intros t Hparse Ht.
    destruct (Hstored (parsed_nonempty h _ _ Hparse)) as [_ ->].
    by rewrite (render_future h input t).
  - intros t Hparse Ht.
    destruct (Hstored (parsed_nonempty h _ _ Hparse)) as [_ ->].
    rewrite (render_lived h input t) by done. by do 3 eexists.
Qed.

Lemma submit_selects_screen_witness :
  App.render IsoHost.host
    (App.step IsoHost.host (App.mount None) (App.Submit "2030-01-01"))
  = App.Visualization VisualizationScreen.FutureMessage
  ∧ App.render IsoHost.host
      (App.step IsoHost.host (App.mount None) (App.Submit "not a date"))
    = App.Visualization VisualizationScreen.Calculating
  ∧ ∃ weeksLived cards presidents,
      App.render IsoHost.host
        (App.step IsoHost.host (App.mount None) (App.Submit "1990-05-15"))
      = App.Visualization
          (VisualizationScreen.Page weeksLived cards presidents).
Proof.
  destruct (submit_selects_screen IsoHost.host (App.mount None) "2030-01-01"
              eq_refl) as (_ & _ & _ & Hfuture & _).
  destruct (submit_selects_screen IsoHost.host (App.mount None) "not a date"
              eq_refl) as (_ & _ & Hnull & _).
  destruct (submit_selects_screen IsoHost.host (App.mount None) "1990-05-15"
              eq_refl) as (_ & _ & _ & _ & Hpage).
  split; [|split].
  - apply (Hfuture 1893456000000); [reflexivity|by vm_compute].
  - apply Hnull; [done|reflexivity].
  - apply (Hpage 642729600000); [reflexivity|by vm_compute].
Defined.

Lemma calculating_is_absorbing (h : Host) (st : App.state)
    (actions : list App.action) :
  App.render h st = App.Visualization VisualizationScreen.Calculating →
  foldl (App.step h) st actions = st.
Proof.
  intros Hscreen. induction actions as [|a actions IH]; [done|].
  cbn [foldl]. replace (App.step h st a) with st; [done|].
  unfold App.step. rewrite Hscreen. by destruct a.
Qed.

(** X15. Sessions that start on the date input screen. A text that is not
    empty and does not parse is stored, and from then on no sequence of
    actions changes the state: the placeholder has no button, so the
    application stays on it. A date that parses can be undone: submitting it
    and then pressing the button wired to [onReset] gives back the state
    before the submission, whether the date is in the future or not. On the
    page, pressing the theme button twice gives back the state, and the
    screen does not change in between. *)
Theorem app_sessions (h : Host) (st : App.state) (input : string) :
  App.birthDate st = None →
  let st' := App.step h st (App.Submit input) in
  (input ≠ "" → Date_parse h input = None →
     ∀ actions, foldl (App.step h) st' actions = st'
       ∧ App.render h (foldl (App.step h) st' actions)
         = App.Visualization VisualizationScreen.Calculating)
  ∧ (∀ t, Date_parse h input = Some t → App.step h st' App.Reset = st)
  ∧ (∀ t, Date_parse h input = Some t → t <= Date_now h →
       App.render h (App.step h st' App.ToggleTheme) = App.render h st'
       ∧ App.theme (App.step h st' App.ToggleTheme) ≠ App.theme st'
       ∧ App.step h (App.step h st' App.ToggleTheme) App.ToggleTheme = st').
Proof.
  intros Hst st'.
  assert (App.render h st = App.DateInput) as Hscreen
    by (unfold App.render; by rewrite Hst).
  assert (input ≠ "" →
          st' = App.handleDateSubmit input st
          ∧ App.render h st'
            = App.Visualization (VisualizationScreen.render h input))
    as Hstored.
  { intros Hne. subst st'. unfold App.step. rewrite Hscreen.
    case_decide; [done|]. split; [done|]. unfold App.render. simpl.
    by case_decide. }
  split; [|split].
  - intros Hne Hparse actions. destruct (Hstored Hne) as [_ Hrender].
    rewrite render_null in Hrender by (by right).
    by rewrite calculating_is_absorbing.
  - intros t Hparse.
    destruct (Hstored (parsed_nonempty h _ _ Hparse)) as [Hst' Hrender].
    assert (App.handleReset st' = st) as Hback
      by (rewrite Hst'; destruct st as [d th]; simpl in *; by subst).
    unfold App.step. rewrite Hrender.
    destruct (Z.lt_ge_cases (Date_now h) t) as [Hfuture|Hpast].
    + by rewrite (render_future h input t).
    + by rewrite (render_lived h input t).
  - intros t Hparse Ht.
    destruct (Hstored (parsed_nonempty h _ _ Hparse)) as [_ Hrender].
    rewrite (render_lived h input t) in Hrender by done.
    assert (App.step h st' App.ToggleTheme = App.toggleTheme st') as ->
      by (unfold App.step; by rewrite Hrender).
    assert (App.render h (App.toggleTheme st') = App.render h st') as Hsame
      by done.
    split; [done|]. split; [destruct st' as [d []]; done|].
    unfold App.step. rewrite Hsame, Hrender. by destruct st' as [d []].
Qed.

Lemma app_sessions_witness :
  foldl (App.step IsoHost.host)
    (App.step IsoHost.host (App.mount None) (App.Submit "not a date"))
    [App.Reset; App.ToggleTheme; App.Submit "1990-05-15"; App.Reset]
  = App.step IsoHost.host (App.mount None) (App.Submit "not a date")
  ∧ App.step IsoHost.host
      (App.step IsoHost.host (App.mount None) (App.Submit "1990-05-15"))
      App.Reset
    = App.mount None.
Proof.
  destruct (app_sessions IsoHost.host (App.mount None) "not a date" eq_refl)
    as (Hstuck & _).
  destruct (app_sessions IsoHost.host (App.mount None) "1990-05-15" eq_refl)
    as (_ & Hundo & _).
  split.
  - apply Hstuck; [done|reflexivity].
  - apply (Hundo 642729600000). reflexivity.
Defined.

(** ** The page *)

Lemma counter_lands (T : Z) (t0 : Q) (post : list AnimatedNumber.event) :
  Exists (λ t, t0 + 1500 <= t)%Q (frameTimes post) →
  ∃ st, AnimatedNumber.run true T (AnimatedNumber.Intersect true t0 :: post)
        = inr st
    ∧ AnimatedNumber.displayValue st = T.
Proof.
  intros Hex. destruct (decide (T = 0)) as [->|HT].
  - exists mountedCounter. split; [|done].
    unfold AnimatedNumber.run. simpl AnimatedNumber.mount. cbv iota.
    f_equal. apply counter_idle; [done|by left].
  - destruct (counter_run_from_visible T t0 [] post HT)
      as (st & Hrun & Hout & _ & Hshow & _).
    { intros now Hin. by apply elem_of_nil in Hin. }
    exists st. split; [done|]. unfold shows_last_emitted in Hshow.
    by rewrite Hshow, Hout, (frames_out_last T t0 _ Hex).
Qed.

(** X16. What the page shows for a birth date that is not in the future.
    No prop is read from a missing field: the grid receives the [weeksLived]
    of the record, the list of presidents is the one of the record, and each
    of the nine cards receives an integer count of the record. The cards
    read every count of the record except [kmTraveledAroundSun], which is
    computed and never shown. The counter of each card, once seen, shows
    exactly that count as soon as a frame has reached the end of the
    animation, whatever its sign; the count is not negative when the local
    year of the birth instant is not after the local year now. *)
Theorem page_shows_the_record (h : Host) (s : string) (birthDate : Z) :
  Date_parse h s = Some birthDate →
  birthDate <= Date_now h →
  ∃ stats weeksLived cards names,
    calculateLifeStats h s = Some stats
    ∧ VisualizationScreen.render h s
      = VisualizationScreen.Page (Some (VNum weeksLived)) cards
          (Some (VNames names))
    ∧ stats !! "weeksLived" = Some (VNum weeksLived)
    ∧ stats !! "presidentsInLifetime" = Some (VNames names)
    ∧ VisualizationScreen.value <$> cards
      = (λ k, stats !! k) <$>
          ["weeksLived"; "heartbeats"; "fullMoons"; "mealsEaten"; "hoursSlept";
           "dreams"; "peopleMet"; "earthRevolutions"; "iphoneModels"]
    ∧ ∀ c, c ∈ cards →
        ∃ n, VisualizationScreen.value c = Some (VNum n)
          ∧ (JSDate.getFullYear (LocalTZA h) birthDate
             <= JSDate.getFullYear (LocalTZA h) (Date_now h) → 0 <= n)
          ∧ ∀ t0 post,
              Exists (λ t, t0 + 1500 <= t)%Q (frameTimes post) →
              ∃ st, AnimatedNumber.run true n
                      (AnimatedNumber.Intersect true t0 :: post) = inr st
                ∧ AnimatedNumber.displayValue st = n.
Proof.
  intros Hs Ht. do 4 eexists.
  split; [by apply calculateLifeStats_lived|].
  split; [rewrite (render_lived h s birthDate) by done;
          by rewrite lifeStats_weeksLived, lifeStats_presidentsInLifetime|].
  split; [apply lifeStats_weeksLived|].
  split; [apply lifeStats_presidentsInLifetime|].
  split; [done|].
  intros c Hc.
  set (stats := lifeStats (Date_now h - birthDate)
                  (JSDate.getFullYear (LocalTZA h) birthDate)
                  (JSDate.getFullYear (LocalTZA h) (Date_now h))).
  assert (∃ k, (k ∈ dayFields ++ ["iphoneModels"] ∨ k ∈ yearFields)
            ∧ VisualizationScreen.value c = stats !! k)
    as (k & Hk & Hval).
  { unfold VisualizationScreen.statCards in Hc.
    repeat (apply elem_of_cons in Hc as [->|Hc]);
      [..|by apply elem_of_nil in Hc];
      eexists; (split; [|reflexivity]); unfold dayFields, yearFields; simpl;
      first [ left;
              by repeat (first [apply list_elem_of_here
                               | apply list_elem_of_further])
            | right;
              by repeat (first [apply list_elem_of_here
                               | apply list_elem_of_further]) ]. }
  assert (∃ n, stats !! k = Some (VNum n)
            ∧ (JSDate.getFullYear (LocalTZA h) birthDate
               <= JSDate.getFullYear (LocalTZA h) (Date_now h) → 0 <= n))
    as (n & Hn & Hpos).
  { destruct Hk as [Hk|Hk].
    - destruct (lifeStats_day_counts_nonneg (Date_now h - birthDate)
                  (JSDate.getFullYear (LocalTZA h) birthDate)
                  (JSDate.getFullYear (LocalTZA h) (Date_now h)) k)
        as (n & Hn & Hpos); [lia|done|]. by exists n.
    - destruct (lifeStats_year_counts_sign (Date_now h - birthDate)
                  (JSDate.getFullYear (LocalTZA h) birthDate)
                  (JSDate.getFullYear (LocalTZA h) (Date_now h)) k Hk)
        as (n & Hn & Hpos). exists n. split; [done|]. by apply Hpos. }
  exists n. split; [by rewrite Hval|]. split; [done|].
  intros t0 post Hex. by apply counter_lands.
Qed.

Lemma page_shows_the_record_witness :
  ∃ stats weeksLived cards names,
    calculateLifeStats IsoHost.host "1990-05-15" = Some stats
    ∧ VisualizationScreen.render IsoHost.host "1990-05-15"
      = VisualizationScreen.Page (Some (VNum weeksLived)) cards
          (Some (VNames names))
    ∧ stats !! "weeksLived" = Some (VNum weeksLived)
    ∧ stats !! "presidentsInLifetime" = Some (VNames names)
    ∧ VisualizationScreen.value <$> cards
      = (λ k, stats !! k) <$>
          ["weeksLived"; "heartbeats"; "fullMoons"; "mealsEaten"; "hoursSlept";
           "dreams"; "peopleMet"; "earthRevolutions"; "iphoneModels"]
    ∧ ∀ c, c ∈ cards →
        ∃ n, VisualizationScreen.value c = Some (VNum n)
          ∧ (1990 <= 2025 → 0 <= n)
          ∧ ∀ t0 post,
              Exists (λ t, t0 + 1500 <= t)%Q (frameTimes post) →
              ∃ st, AnimatedNumber.run true n
                      (AnimatedNumber.Intersect true t0 :: post) = inr st
                ∧ AnimatedNumber.displayValue st = n.
Proof.
  apply (page_shows_the_record IsoHost.host "1990-05-15" 642729600000);
    [reflexivity|]. unfold IsoHost.host. simpl. lia.
Defined.

(** In Phoenix at the new year of 1944 the card of the orbits receives -1,
    and its counter ends on -1. *)
Example orbits_card_negative :
  VisualizationScreen.value <$>
    (match VisualizationScreen.render IsoHost.phoenix1944 "1944-01-01T06:00:30Z"
     with
     | VisualizationScreen.Page _ cards _ => cards !! 7%nat
     | _ => None
     end)
  = Some (Some (VNum (-1))).
Proof. by vm_compute. Qed.
